(** * acmego: replaying a formatter's diff into an open acme window

    A shallow embedding of [acme/acmego/main.go]: the span extractor
    [findLines], the range parser [parseSpan] and the replay loop of
    [reformat], followed by the properties of the specification that
    they decide.

    Conventions of the embedding.
    - A Go [string] and a Go [[]byte] are both sequences of bytes; they
      are modelled by [list ascii], and the conversions [string(b)] and
      [[]byte(s)] are the identity.
    - A Go [int] is a 64-bit signed integer, modelled by [Z]; where the
      source computes on a value that the input controls ([start--],
      [end--]) the wrap-around is written out with [wrap].  Indexes
      range over [0 .. len], which always fits, so they are not wrapped.
    - Indexing and slicing out of range panic in Go; the primitives
      [idx] and [slice] return [Panic] there, and the theorems show
      that the code never reaches it.
    - Loops that are not structural run through the combinator [while],
      which takes the number of iterations it may perform. *)

From Stdlib Require Import Ascii String.
From Stdlib Require Import ZArith List Bool Lia.
Import ListNotations.

Local Open Scope Z_scope.

(** ** Bytes and byte strings *)

Abbreviation byte := ascii (only parsing).
Abbreviation bytes := (list ascii) (only parsing).

(** A literal of the source, as a sequence of bytes. *)
Definition B (s : string) : bytes := list_ascii_of_string s.
Arguments B : simpl never.

Definition NL : byte := "010"%char.

Definition byte_eqb (a b : byte) : bool := Ascii.eqb a b.

Fixpoint bytes_eqb (a b : bytes) : bool :=
  match a, b with
  | [], [] => true
  | x :: a', y :: b' => byte_eqb x y && bytes_eqb a' b'
  | _, _ => false
  end.

(** [len(s)], a Go [int]. *)
Definition len (s : bytes) : Z := Z.of_nat (length s).

(** ** Outcomes of a computation that may panic *)

Inductive outcome (A : Type) : Type :=
| Done (a : A)
| Panic
| Timeout.

Arguments Done {A} a.
Arguments Panic {A}.
Arguments Timeout {A}.

Definition obind {A B : Type} (o : outcome A) (k : A -> outcome B) : outcome B :=
  match o with
  | Done a => k a
  | Panic => Panic
  | Timeout => Timeout
  end.

Declare Scope outcome_scope.
Delimit Scope outcome_scope with outcome.
Notation "x <~ c ; k" := (obind c (fun x => k))
  (at level 61, c at next level, right associativity) : outcome_scope.

(** [s[i]]: panics when [i] is out of range. *)
Definition idx (s : bytes) (i : Z) : outcome byte :=
  if (0 <=? i) && (i <? len s) then
    match nth_error s (Z.to_nat i) with
    | Some c => Done c
    | None => Panic
    end
  else Panic.

(** [s[lo:hi]]: panics unless [0 <= lo <= hi <= len(s)]. *)
Definition slice (s : bytes) (lo hi : Z) : outcome bytes :=
  if (0 <=? lo) && (lo <=? hi) && (hi <=? len s) then
    Done (firstn (Z.to_nat (hi - lo)) (skipn (Z.to_nat lo) s))
  else Panic.

(** ** Machine integers *)

Definition minInt : Z := - 2 ^ 63.
Definition maxInt : Z := 2 ^ 63 - 1.

Definition in_int (z : Z) : Prop := minInt <= z <= maxInt.

Definition wrap (z : Z) : Z := (z + 2 ^ 63) mod 2 ^ 64 - 2 ^ 63.

(** ** Loops *)

Section While.
Context {St : Type}.
Variable cond : St -> outcome bool.
Variable body : St -> outcome St.

(** [for cond { body }], allowed [fuel] iterations.  The condition is
    evaluated before each iteration and may itself index a slice. *)
Fixpoint while (fuel : nat) (s : St) : outcome St :=
  match cond s with
  | Done true =>
      match fuel with
      | O => Timeout
      | S fuel' =>
          match body s with
          | Done s' => while fuel' s'
          | Panic => Panic
          | Timeout => Timeout
          end
      end
  | Done false => Done s
  | Panic => Panic
  | Timeout => Timeout
  end.
End While.

(** ** The span extractor *)

Record cursor : Type := Cursor { cur_i : Z; cur_start : Z; cur_end : Z }.

(** The first loop of [findLines]:
    [for ; i < len(text) && start > 0; i++ {
       if text[i] == '\n' { start--; end-- } }] *)
Definition skipGuard (c : cursor) : bool := 0 <? cur_start c.

Definition skipStep (c : cursor) (ch : byte) : cursor :=
  if byte_eqb ch NL
  then Cursor (cur_i c + 1) (wrap (cur_start c - 1)) (wrap (cur_end c - 1))
  else Cursor (cur_i c + 1) (cur_start c) (cur_end c).

(** The second loop of [findLines]:
    [for ; i < len(text) && end > 0; i++ {
       if text[i] == '\n' { end-- } }] *)
Definition takeGuard (c : cursor) : bool := 0 <? cur_end c.

Definition takeStep (c : cursor) (ch : byte) : cursor :=
  if byte_eqb ch NL
  then Cursor (cur_i c + 1) (cur_start c) (wrap (cur_end c - 1))
  else Cursor (cur_i c + 1) (cur_start c) (cur_end c).

(** A loop [for ; i < len(text) && guard; i++ { ... text[i] ... }]. *)
Definition scanCond (text : bytes) (guard : cursor -> bool) (c : cursor) : outcome bool :=
  Done ((cur_i c <? len text) && guard c).

Definition scanBody (text : bytes) (step : cursor -> byte -> cursor) (c : cursor)
    : outcome cursor :=
  (ch <~ idx text (cur_i c); Done (step c ch))%outcome.

(** [startByte] and [endByte] of [findLines]. *)
Definition findBounds (text : bytes) (start end_ : Z) : outcome (Z * Z) :=
  (let c0 := Cursor 0 (wrap (start - 1)) end_ in
   c1 <~ while (scanCond text skipGuard) (scanBody text skipStep) (length text) c0;
   let startByte := cur_i c1 in
   c2 <~ while (scanCond text takeGuard) (scanBody text takeStep) (length text) c1;
   let endByte := cur_i c2 in
   Done (startByte, endByte))%outcome.

Definition findLines (text : bytes) (start end_ : Z) : outcome bytes :=
  (se <~ findBounds text start end_;
   slice text (fst se) (snd se))%outcome.

(** ** Library functions of Go used by the parser *)

(** [strings.Index(s, sep)] for a separator of one byte: the index of
    its first occurrence, or [-1]. *)
Fixpoint Index (s : bytes) (sep : byte) : Z :=
  match s with
  | [] => -1
  | c :: t =>
      if byte_eqb c sep then 0
      else let r := Index t sep in if r <? 0 then -1 else r + 1
  end.

(** [strings.Split(s, sep)] for a separator of one byte: the pieces
    between the separators; [n] separators give [n + 1] pieces. *)
Fixpoint Split (s : bytes) (sep : byte) : list bytes :=
  match s with
  | [] => [[]]
  | c :: t =>
      if byte_eqb c sep then [] :: Split t sep
      else match Split t sep with
           | [] => [[c]]
           | piece :: pieces => (c :: piece) :: pieces
           end
  end.

Definition digitVal (c : byte) : option Z :=
  let n := Z.of_nat (nat_of_ascii c) in
  if (48 <=? n) && (n <=? 57) then Some (n - 48) else None.

Fixpoint parseDigits (s : bytes) (acc : Z) : option Z :=
  match s with
  | [] => Some acc
  | c :: t =>
      match digitVal c with
      | Some d => parseDigits t (acc * 10 + d)
      | None => None
      end
  end.

(** [strconv.Atoi(s)]: an optional sign followed by one or more decimal
    digits, whose value fits a 64-bit [int]; [None] stands for a
    non-nil error (syntax or range). *)
Definition Atoi (s : bytes) : option Z :=
  match s with
  | [] => None
  | c :: t =>
      let '(neg, ds) :=
        if byte_eqb c "-"%char then (true, t)
        else if byte_eqb c "+"%char then (false, t)
        else (false, s) in
      match ds with
      | [] => None
      | _ :: _ =>
          match parseDigits ds 0 with
          | Some n =>
              let v := if neg then - n else n in
              if (minInt <=? v) && (v <=? maxInt) then Some v else None
          | None => None
          end
      end
  end.

(** ** The window and the log *)

Inductive logmsg : Type :=
| LogErr                       (* log.Print(err) *)
| LogSkipped (name : bytes)    (* skipped update to %s: window modified since Put *)
| LogBadLine (line : bytes)    (* cannot parse diff line: %q *)
| LogBadSpan (text : bytes).   (* cannot parse span %q *)

(** What the program did to the world, in the order it did it; [err]
    is [true] when the call returned a non-nil error. *)
Inductive event : Type :=
| EvReadAll (file : bytes) (err : bool)
| EvAddr (format : bytes) (args : list Z) (err : bool)
| EvWrite (file : bytes) (data : bytes) (err : bool)
| EvLog (m : logmsg).

(** The three calls of [*acme.Win] that [reformat] makes.  [Win_Addr]
    receives the format and its arguments, as [w.Addr] does. *)
Class Backend (W : Type) : Type := {
  Win_ReadAll : bytes -> W -> option bytes * W;
  Win_Addr : bytes -> list Z -> W -> bool * W;
  Win_Write : bytes -> bytes -> W -> bool * W
}.

(** [type Formatter interface { format(string) ([]byte, error) }] *)
Record Formatter : Type := { format : bytes -> bytes * bool }.

(** The results of the other calls that leave the program. *)
Record World : Type := {
  acme_Open_err : Z -> bool;              (* acme.Open(id, nil) *)
  ioutil_ReadFile : bytes -> option bytes;
  ioutil_TempFile_err : bool;
  tmp_Write_err : bool;                   (* f.Write(new) *)
  usr_bin_diff : bytes -> bytes -> bytes  (* diff name tmp, by content *)
}.

Inductive ctl : Type := Next | Break.

Section Reformat.
Context {W : Type} `{Backend W}.

(** [type Window struct { *acme.Win; modified bool }], with the log. *)
Record Session : Type := {
  win : W;
  modified : bool;
  events : list event
}.

Definition M (A : Type) : Type := Session -> outcome (A * Session).

Definition ret {A : Type} (a : A) : M A := fun s => Done (a, s).

Definition bind {A C : Type} (m : M A) (k : A -> M C) : M C :=
  fun s => match m s with
           | Done (a, s') => k a s'
           | Panic => Panic
           | Timeout => Timeout
           end.

Definition lift {A : Type} (o : outcome A) : M A :=
  fun s => match o with
           | Done a => Done (a, s)
           | Panic => Panic
           | Timeout => Timeout
           end.

Definition emit (e : event) (s : Session) : Session :=
  {| win := win s; modified := modified s; events := events s ++ [e] |}.

Definition log (m : logmsg) : M unit := fun s => Done (tt, emit (EvLog m) s).

Definition ReadAll (file : bytes) : M (option bytes) :=
  fun s => let '(r, w') := Win_ReadAll file (win s) in
           Done (r, {| win := w'; modified := modified s;
                       events := events s ++
                         [EvReadAll file (match r with Some _ => false | None => true end)] |}).

Definition Addr (fmt : bytes) (args : list Z) : M bool :=
  fun s => let '(err, w') := Win_Addr fmt args (win s) in
           Done (err, {| win := w'; modified := modified s;
                         events := events s ++ [EvAddr fmt args err] |}).

(** [func (w *Window) Write(ftype string, data []byte)]: the result of
    [w.Win.Write] is dropped and [modified] is set. *)
Definition Write (ftype data : bytes) : M unit :=
  fun s => let '(err, w') := Win_Write ftype data (win s) in
           Done (tt, {| win := w'; modified := true;
                        events := events s ++ [EvWrite ftype data err] |}).
End Reformat.

Arguments Session W : clear implicits.
Arguments M W A : clear implicits.

Declare Scope go_scope.
Delimit Scope go_scope with go.
Notation "x <- c ;; k" := (bind c (fun x => k))
  (at level 61, c at next level, right associativity) : go_scope.
Notation "' p <- c ;; k" := (bind c (fun x => match x with p => k end))
  (at level 61, p pattern, c at next level, right associativity) : go_scope.
Notation "c ;; k" := (bind c (fun _ => k))
  (at level 61, right associativity) : go_scope.

(** ** The range parser and the replay loop *)

Definition isOp (c : byte) : bool :=
  byte_eqb c "a"%char || byte_eqb c "c"%char || byte_eqb c "d"%char.

(** [for j < len(line) && line[j] != 'a' && line[j] != 'c' && line[j] != 'd'] *)
Definition opCond (line : bytes) (j : Z) : outcome bool :=
  if j <? len line then (c <~ idx line j; Done (negb (isOp c)))%outcome
  else Done false.

(** [j := 0; for ... { j++ }]: the index of the first operator letter
    of [line], or [len(line)]. *)
Definition scanOp (line : bytes) : outcome Z :=
  while (opCond line) (fun j => Done (j + 1)) (length line) 0.

Definition noNewline : bytes := B "\ No newline at end of file".

Section Replay.
Context {W : Type} `{Backend W}.
Local Open Scope go_scope.

Definition parseSpan (text : bytes) : M W (Z * Z) :=
  let i := Index text ","%char in
  if i <? 0 then
    match Atoi text with
    | None => log (LogBadSpan text) ;; ret (0, 0)
    | Some n => ret (n, n)
    end
  else
    lo <- lift (slice text 0 i) ;;
    hi <- lift (slice text (i + 1) (len text)) ;;
    match Atoi lo, Atoi hi with
    | Some start, Some end_ => ret (start, end_)
    | _, _ => log (LogBadSpan text) ;; ret (0, 0)
    end.

(** The [switch line[j]] of the loop body; the [break] of each case
    leaves the switch only. *)
Definition applyOp (new : bytes) (op : byte)
    (oldStart oldEnd newStart newEnd : Z) : M W unit :=
  if byte_eqb op "a"%char then
    err <- Addr (B "%d+#0") [oldStart] ;;
    if err then log LogErr
    else data <- lift (findLines new newStart newEnd) ;;
         Write (B "data") data
  else if byte_eqb op "c"%char then
    err <- Addr (B "%d,%d") [oldStart; oldEnd] ;;
    if err then log LogErr
    else data <- lift (findLines new newStart newEnd) ;;
         Write (B "data") data
  else if byte_eqb op "d"%char then
    err <- Addr (B "%d,%d") [oldStart; oldEnd] ;;
    if err then log LogErr
    else Write (B "data") []
  else ret tt.

(** One iteration of the loop over the lines of the diff: [Next] for
    the end of the body or a [continue], [Break] for the [break] that
    leaves the loop. *)
Definition replayLine (new line : bytes) : M W ctl :=
  if bytes_eqb line [] then ret Next
  else if bytes_eqb line noNewline then
    _ <- Addr (B "$") [] ;;
    Write (B "data") [NL] ;;
    ret Next
  else
    c0 <- lift (idx line 0) ;;
    if byte_eqb c0 "<"%char || byte_eqb c0 "-"%char || byte_eqb c0 ">"%char
    then ret Next
    else
      j <- lift (scanOp line) ;;
      if len line <=? j then
        log (LogBadLine line) ;; ret Break
      else
        before <- lift (slice line 0 j) ;;
        ' (oldStart, oldEnd) <- parseSpan before ;;
        after <- lift (slice line (j + 1) (len line)) ;;
        ' (newStart, newEnd) <- parseSpan after ;;
        if (oldStart =? 0) || (newStart =? 0) then ret Next
        else
          op <- lift (idx line j) ;;
          applyOp new op oldStart oldEnd newStart newEnd ;;
          ret Next.

(** [for i := len(diffLines) - 1; i >= 0; i-- { line := diffLines[i]; ... }],
    given the lines in the order the loop visits them. *)
Fixpoint replayLines (new : bytes) (lines : list bytes) : M W unit :=
  match lines with
  | [] => ret tt
  | line :: rest =>
      c <- replayLine new line ;;
      match c with
      | Next => replayLines new rest
      | Break => ret tt
      end
  end.

Definition replay (new diff : bytes) : M W unit :=
  replayLines new (rev (Split diff NL)).

(** The body of [reformat] once the window is at hand. *)
Definition reformatM (world : World) (id : Z) (name : bytes)
    (fmter : Formatter) : M W bool :=
  if acme_Open_err world id then log LogErr ;; ret false
  else
    match ioutil_ReadFile world name with
    | None => ret false
    | Some old =>
        let '(new, err) := format fmter name in
        if err then ret false
        else if bytes_eqb old new then ret false
        else if ioutil_TempFile_err world then log LogErr ;; ret false
        else if tmp_Write_err world then log LogErr ;; ret false
        else
          let diff := usr_bin_diff world old new in
          r <- ReadAll (B "body") ;;
          match r with
          | None => log LogErr ;; ret false
          | Some latest =>
              if negb (bytes_eqb old latest) then
                log (LogSkipped name) ;; ret false
              else
                Write (B "ctl") (B "mark") ;;
                Write (B "ctl") (B "nomark") ;;
                replay new diff ;;
                fun s => Done (modified s, s)
          end
    end.

(** [w := Window{win, false}] *)
Definition open (w : W) : Session W :=
  {| win := w; modified := false; events := [] |}.

(** [func reformat(id int, name string, fmter Formatter) bool], run on
    the acme window [w] that [id] names. *)
Definition reformat (world : World) (id : Z) (name : bytes)
    (fmter : Formatter) (w : W) : outcome (bool * Session W) :=
  reformatM world id name fmter (open w).
End Replay.

(** ** What the trace of a run says *)

Definition isWrite (e : event) : bool :=
  match e with EvWrite _ _ _ => true | _ => false end.

Definition isWriteOk (e : event) : bool :=
  match e with EvWrite _ _ false => true | _ => false end.

Definition isAddr (e : event) : bool :=
  match e with EvAddr _ _ _ => true | _ => false end.

Definition isLog (e : event) : bool :=
  match e with EvLog _ => true | _ => false end.

(** No write was issued to the window, control or data. *)
Definition noWrites (tr : list event) : Prop := forallb (fun e => negb (isWrite e)) tr = true.

(** [line] is a diff line on which the loop looks for a hunk header:
    neither blank, nor the end-of-file marker, nor a content line. *)
Definition isHeaderCandidate (line : bytes) : bool :=
  match line with
  | [] => false
  | c0 :: _ =>
      negb (bytes_eqb line noNewline) &&
      negb (byte_eqb c0 "<"%char || byte_eqb c0 "-"%char || byte_eqb c0 ">"%char)
  end.

(** The world [world] with another answer of the diff engine. *)
Definition withDiff (world : World) (diff : bytes -> bytes -> bytes) : World :=
  {| acme_Open_err := acme_Open_err world;
     ioutil_ReadFile := ioutil_ReadFile world;
     ioutil_TempFile_err := ioutil_TempFile_err world;
     tmp_Write_err := tmp_Write_err world;
     usr_bin_diff := diff |}.

(** A world in which the file holds [old], the formatter prints [new]
    and the diff engine prints [diff]; nothing fails. *)
Definition calm (old diff : bytes) : World :=
  {| acme_Open_err := fun _ => false;
     ioutil_ReadFile := fun _ => Some old;
     ioutil_TempFile_err := false;
     tmp_Write_err := false;
     usr_bin_diff := fun _ _ => diff |}.

Definition printing (new : bytes) : Formatter :=
  {| format := fun _ => (new, false) |}.

(** The monadic program [m] returns from every state that satisfies
    [I], in a state that satisfies it. *)
Definition keeps {W A : Type} (I : Session W -> Prop) (m : M W A) : Prop :=
  forall s, I s -> exists a s', m s = Done (a, s') /\ I s'.

(** The flag [modified] tells whether a write was issued. *)
Definition modifiedIffWritten {W : Type} (s : Session W) : Prop :=
  modified s = existsb isWrite (events s).

(** The address that the operation [op] of a hunk selects. *)
Definition opAddr (op : byte) (oldStart oldEnd : Z) : bytes * list Z :=
  if byte_eqb op "a"%char then (B "%d+#0", [oldStart])
  else (B "%d,%d", [oldStart; oldEnd]).

(** After a failed address, the trace holds no further address and no
    further write. *)
Definition abortsOnAddrFailure (tr : list event) : Prop :=
  forall pre post fmt args,
    tr = pre ++ EvAddr fmt args true :: post ->
    forallb (fun e => negb (isAddr e || isWrite e)) post = true.

(** ** Decimal rendering *)

Definition isDigit (c : byte) : bool :=
  let n := Z.of_nat (nat_of_ascii c) in (48 <=? n) && (n <=? 57).

(** The bytes of a decimal numeral: digits and the minus sign. *)
Definition isNumChar (c : byte) : bool := isDigit c || byte_eqb c "-"%char.



Definition digitChar (d : Z) : byte := ascii_of_nat (Z.to_nat (48 + d)).

Fixpoint digitsOf (fuel : nat) (n : Z) (acc : bytes) : bytes :=
  match fuel with
  | O => acc
  | S fuel' =>
      let acc' := digitChar (n mod 10) :: acc in
      if n <? 10 then acc' else digitsOf fuel' (n / 10) acc'
  end.

(** The decimal numeral of an integer, as [%d] prints it. *)
Definition itoa (n : Z) : bytes :=
  if n <? 0 then "-"%char :: digitsOf (S (Z.to_nat (Z.log2 (- n)))) (- n) []
  else digitsOf (S (Z.to_nat (Z.log2 n))) n [].

(** A text made of whole lines. *)
Definition ln (l : bytes) : bytes := l ++ [NL].
Definition unlines (ls : list bytes) : bytes := concat (map ln ls).

Definition nlfree (l : bytes) : Prop := Forall (fun c => c <> NL) l.


(** The number of lines of a text: a line ends at each newline, and at
    the end of the text when its last byte is not a newline. *)
Fixpoint lineCount (text : bytes) : Z :=
  match text with
  | [] => 0
  | c :: t =>
      match t with
      | [] => 1
      | _ :: _ => (if byte_eqb c NL then 1 else 0) + lineCount t
      end
  end.

(** ** The loops, by recursion on the text still to scan *)

(** What a scanning loop computes from the cursor [c] when [rest] is
    the text from its index on. *)
Fixpoint scanRun (guard : cursor -> bool) (step : cursor -> byte -> cursor)
    (rest : bytes) (c : cursor) : cursor :=
  match rest with
  | [] => c
  | ch :: t => if guard c then scanRun guard step t (step c ch) else c
  end.

(** The number of bytes before the first operator letter of [line]. *)
Fixpoint opIndex (line : bytes) : Z :=
  match line with
  | [] => 0
  | c :: t => if isOp c then 0 else 1 + opIndex t
  end.

(** ** The document backend *)

Module Acme.

(** Modelled from the spec: the window of the document backend
    (section 6; package [acme] and the editor behind it are not among
    the sources): the body and the current address, a range of byte
    offsets. *)
Record win : Type := Win { body : bytes; q0 : Z; q1 : Z }.

(** The offset just past the [k]-th newline of [text], when it has
    that many. *)
Fixpoint afterNewlines (text : bytes) (k : nat) : option Z :=
  match k with
  | O => Some 0
  | S k' =>
      match text with
      | [] => None
      | c :: t =>
          option_map Z.succ (afterNewlines t (if byte_eqb c NL then k' else k))
      end
  end.

(** The length of the first line of [text], newline included. *)
Fixpoint lineLen (text : bytes) : Z :=
  match text with
  | [] => 0
  | c :: t => if byte_eqb c NL then 1 else 1 + lineLen t
  end.

(** Modelled from the spec: the range of bytes that line [l] selects
    (section 6, [setAddress]; lines are 1-based, line 0 is the empty
    range at the start, a line past the text is out of range). *)
Definition lineAddr (text : bytes) (l : Z) : option (Z * Z) :=
  if l <? 0 then None
  else if l =? 0 then Some (0, 0)
  else match afterNewlines text (Z.to_nat (l - 1)) with
       | Some p => Some (p, p + lineLen (skipn (Z.to_nat p) text))
       | None => None
       end.

(** Modelled from the spec: [setAddress] of section 6 on the three
    address forms the replayer uses: [$] is the end of the document,
    [N+#0] the insertion point after line [N], [N,M] the inclusive
    range of lines; the error is an address out of range. *)
Definition evalAddr (text fmt : bytes) (args : list Z) : option (Z * Z) :=
  if bytes_eqb fmt (B "$") then
    match args with
    | [] => Some (len text, len text)
    | _ => None
    end
  else if bytes_eqb fmt (B "%d+#0") then
    match args with
    | [n] => match lineAddr text n with
             | Some (_, e) => Some (e, e)
             | None => None
             end
    | _ => None
    end
  else if bytes_eqb fmt (B "%d,%d") then
    match args with
    | [n; m] =>
        match lineAddr text n, lineAddr text m with
        | Some (a, _), Some (_, b) => if a <=? b then Some (a, b) else None
        | _, _ => None
        end
    | _ => None
    end
  else None.

Definition setAddress (fmt : bytes) (args : list Z) (w : win) : bool * win :=
  match evalAddr (body w) fmt args with
  | Some (a, b) => (false, Win (body w) a b)
  | None => (true, w)
  end.

(** Modelled from the spec: [write] of section 6: a write to [data]
    replaces the bytes of the current address, a write of [mark] or
    [nomark] to [ctl] leaves the text alone. *)
Definition write (file data : bytes) (w : win) : bool * win :=
  if bytes_eqb file (B "data") then
    (false,
     Win (firstn (Z.to_nat (q0 w)) (body w) ++ data ++ skipn (Z.to_nat (q1 w)) (body w))
         (q0 w + len data) (q0 w + len data))
  else if bytes_eqb file (B "ctl") then
    (negb (bytes_eqb data (B "mark") || bytes_eqb data (B "nomark")), w)
  else (true, w).

(** Modelled from the spec: [readAll] of section 6. *)
Definition readAll (file : bytes) (w : win) : option bytes * win :=
  if bytes_eqb file (B "body") then (Some (body w), w) else (None, w).

#[global] Instance backend : Backend win :=
  {| Win_ReadAll := readAll; Win_Addr := setAddress; Win_Write := write |}.

(** A window that holds [text], nothing selected. *)
Definition holding (text : bytes) : win := Win text 0 0.

End Acme.

(** Modelled from the spec: a document backend (section 6) whose
    [setAddress] and [write] report an error at every call, as those
    of a window deleted after its body was read. *)
Module Gone.

Record win : Type := Win { last_body : bytes }.

#[global] Instance backend : Backend win :=
  {| Win_ReadAll := fun _ w => (Some (last_body w), w);
     Win_Addr := fun _ _ w => (true, w);
     Win_Write := fun _ _ w => (true, w) |}.

End Gone.

(** ** The diff engine *)

Module Diff.

(** Modelled from the spec: a hunk of the diff engine of section 4.1
    ([/usr/bin/diff] is not among the sources): [opos] and [npos]
    count the lines of the old and of the new text that precede the
    hunk, [del] and [ins] are the lines it removes and inserts. *)
Inductive hunk : Type :=
| Add (opos npos : nat) (ins : list bytes)
| Change (opos npos : nat) (del ins : list bytes)
| Delete (opos npos : nat) (del : list bytes).


Definition opos (h : hunk) : nat :=
  match h with Add o _ _ | Change o _ _ _ | Delete o _ _ => o end.

Definition npos (h : hunk) : nat :=
  match h with Add _ n _ | Change _ n _ _ | Delete _ n _ => n end.










(** A line of the content of a hunk: it starts with [<], [-] or [>]. *)
Definition isContentLine (line : bytes) : bool :=
  match line with
  | [] => false
  | c0 :: _ => byte_eqb c0 "<"%char || byte_eqb c0 "-"%char || byte_eqb c0 ">"%char
  end.








End Diff.

(** ** The rest of the program: extensions, formatters, the event loop *)

(** [strings.LastIndex(s, sep)] for a separator of one byte: the index
    of its last occurrence, or [-1]. *)
Fixpoint LastIndex (s : bytes) (sep : byte) : Z :=
  match s with
  | [] => -1
  | c :: t =>
      let r := LastIndex t sep in
      if 0 <=? r then r + 1
      else if byte_eqb c sep then 0 else -1
  end.

(** [func fileExt(filePath string) string] *)
Definition fileExt (filePath : bytes) : outcome bytes :=
  let n := LastIndex filePath "."%char in
  if negb (n =? -1) then slice filePath (n + 1) (len filePath)
  else Done [].

(** [bytes.HasPrefix(s, prefix)] *)
Fixpoint HasPrefix (s prefix : bytes) : bool :=
  match prefix, s with
  | [], _ => true
  | p :: prefix', c :: s' => byte_eqb c p && HasPrefix s' prefix'
  | _ :: _, [] => false
  end.

(** [*exec.Cmd], as far as the program determines it: [Args] holds
    the command name followed by its arguments, [Dir] the working
    directory.  The field [Path] is left out: [exec.Command] fills it
    with the name or with the file that [exec.LookPath] finds for it
    on the PATH of the process, which is for the system that runs the
    command to say ([CombinedOutput] below). *)
Record Cmd : Type := { Args : list bytes; Dir : bytes }.

(** [exec.Command(name, arg...)] *)
Definition Command (name : bytes) (arg : list bytes) : Cmd :=
  {| Args := name :: arg; Dir := [] |}.

(** [cmd.Dir = dir] *)
Definition setDir (c : Cmd) (dir : bytes) : Cmd :=
  {| Args := Args c; Dir := dir |}.

(** [func buildCmd(cmd, file string, args ...string) *exec.Cmd] *)
Definition buildCmd (cmd file : bytes) (args : list bytes) : Cmd :=
  if 0 <? Z.of_nat (length args) then Command cmd (args ++ [file])
  else Command cmd [file].

(** What runs a command: [cmd.CombinedOutput()] gives the output and
    whether the error is non-nil, the lookup of the command on the
    PATH included; [filepath.Dir] is taken as given. *)
Record Exec : Type := {
  CombinedOutput : Cmd -> bytes * bool;
  filepath_Dir : bytes -> bytes
}.

(** What a formatter writes to [os.Stderr]. *)
Inductive stderrmsg : Type :=
| MsgFailed (label file new : bytes)   (* "<label> %s: %v\n%s", file, err, new *)
| MsgOutput (out : bytes).             (* "%s", out *)

Inductive effect : Type :=
| Ran (c : Cmd)
| Printed (m : stderrmsg).

(** The five types that implement [Formatter], each with its [cmd]. *)
Inductive fmter : Type :=
| GoImportFmt (cmd : bytes)
| PyFmt (cmd : bytes)
| RustFmt (cmd : bytes)
| DefaultEolFmt (cmd : bytes)
| ElmFmt (cmd : bytes).

(** The body shared by the [format] methods of [PyFmt], [RustFmt],
    [DefaultEolFmt] and [ElmFmt]:
    [cmd := buildCmd(x.cmd, file); new, err := cmd.CombinedOutput();
     if err != nil { fmt.Fprintf(os.Stderr, ...) }; return new, err] *)
Definition runFmt (os : Exec) (cmd label file : bytes)
    : (bytes * bool) * list effect :=
  let c := buildCmd cmd file [] in
  let '(new, err) := CombinedOutput os c in
  if err then ((new, err), [Ran c; Printed (MsgFailed label file new)])
  else ((new, err), [Ran c]).

(** [func (g *GoImportFmt) format(file string) ([]byte, error)] *)
Definition GoImportFmt_format (os : Exec) (cmd file : bytes)
    : (bytes * bool) * list effect :=
  let c := setDir (buildCmd cmd file []) (filepath_Dir os file) in
  let '(new, err) := CombinedOutput os c in
  if err then
    let c2 := setDir (Command (B "go") [B "build"; file]) (B "/var/run") in
    let '(out, _) := CombinedOutput os c2 in
    let start := B "# command-line-arguments" ++ [NL] in
    if negb (HasPrefix out start) then
      ((new, err), [Ran c; Ran c2; Printed (MsgFailed (B "goimports") file new)])
    else
      ((new, err), [Ran c; Ran c2; Printed (MsgOutput out)])
  else ((new, err), [Ran c]).

(** The method [format] of each implementation. *)
Definition formatOf (os : Exec) (f : fmter) (file : bytes)
    : (bytes * bool) * list effect :=
  match f with
  | GoImportFmt cmd => GoImportFmt_format os cmd file
  | PyFmt cmd => runFmt os cmd (B "yapf") file
  | RustFmt cmd => runFmt os cmd cmd file
  | DefaultEolFmt cmd => runFmt os cmd (B "default fmt eol") file
  | ElmFmt cmd => runFmt os cmd cmd file
  end.

(** The field [cmd] of each of the five structs. *)
Definition cmdOf (f : fmter) : bytes :=
  match f with
  | GoImportFmt cmd | PyFmt cmd | RustFmt cmd | DefaultEolFmt cmd | ElmFmt cmd => cmd
  end.

(** The value of the interface type [Formatter] that [f] is. *)
Definition asFormatter (os : Exec) (f : fmter) : Formatter :=
  {| format := fun file => fst (formatOf os f file) |}.

(** A Go [map[string]V]: the pairs of a key and its value, each key
    once. *)
Definition gomap (V : Type) : Type := list (bytes * V).

(** [v, ok := m[k]] *)
Fixpoint mapGet {V : Type} (m : gomap V) (k : bytes) : option V :=
  match m with
  | [] => None
  | (k', v) :: rest => if bytes_eqb k' k then Some v else mapGet rest k
  end.

(** [m[k] = v] *)
Definition mapSet {V : Type} (m : gomap V) (k : bytes) (v : V) : gomap V :=
  (k, v) :: filter (fun kv => negb (bytes_eqb (fst kv) k)) m.

(** [func newFmts() map[string]Formatter] *)
Definition newFmts : gomap fmter :=
  let gofmt := GoImportFmt (B "goimports") in
  let pyfmt := PyFmt (B "yapf") in
  let rustfmt := RustFmt (B "fmtrust") in
  let defaultfmt := DefaultEolFmt (B "aeol") in
  let elmfmt := ElmFmt (B "elmfmt") in
  let fmts := [] in
  let fmts := mapSet fmts (B "py") pyfmt in
  let fmts := mapSet fmts (B "go") gofmt in
  let fmts := mapSet fmts (B "rs") rustfmt in
  let fmts := mapSet fmts (B "elm") elmfmt in
  let fmts := mapSet fmts (B "anyext") defaultfmt in
  fmts.

(** An event of the acme log, as [main] reads it. *)
Record LogEvent : Type := { ID : Z; Op : bytes; Name : bytes }.

(** What one iteration of the loop of [main] leaves behind: the two
    flags, the session of [reformat] when it was called, and what the
    iteration itself ran and printed after it. *)
Record Handled (W : Type) : Type := {
  h_modified : bool;
  h_anyextFmtUsed : bool;
  h_session : option (Session W);
  h_after : list effect
}.

Arguments h_modified {W} _.
Arguments h_anyextFmtUsed {W} _.
Arguments h_session {W} _.
Arguments h_after {W} _.

Section Main.
Context {W : Type} `{Backend W}.

(** [if !modified || anyextFmtUsed {
       output, _ := exec.Command("bl2plus", event.Name).CombinedOutput()
       fmt.Fprintf(os.Stderr, "%s", output) }] *)
Definition afterReformat (os : Exec) (name : bytes) (modified anyextFmtUsed : bool)
    : list effect :=
  if negb modified || anyextFmtUsed then
    let c := Command (B "bl2plus") [name] in
    [Ran c; Printed (MsgOutput (fst (CombinedOutput os c)))]
  else [].

(** The body of the loop of [main] for one event read from the log,
    [w] being the window that the event names.  A missing key
    [anyext] would leave a nil [Formatter], whose method cannot be
    called. *)
Definition handleEvent (world : World) (os : Exec) (fmts : gomap fmter)
    (event : LogEvent) (w : W) : outcome (Handled W) :=
  if negb (bytes_eqb (Name event) []) && bytes_eqb (Op event) (B "put") then
    (ext <~ fileExt (Name event);
     match mapGet fmts ext with
     | Some f =>
         r <~ reformat world (ID event) (Name event) (asFormatter os f) w;
         Done {| h_modified := fst r; h_anyextFmtUsed := false;
                 h_session := Some (snd r);
                 h_after := afterReformat os (Name event) (fst r) false |}
     | None =>
         match mapGet fmts (B "anyext") with
         | Some f =>
             r <~ reformat world (ID event) (Name event) (asFormatter os f) w;
             Done {| h_modified := fst r; h_anyextFmtUsed := true;
                     h_session := Some (snd r);
                     h_after := afterReformat os (Name event) (fst r) true |}
         | None => Panic
         end
     end)%outcome
  else Done {| h_modified := false; h_anyextFmtUsed := false;
               h_session := None; h_after := [] |}.
End Main.

(** ** Notions used to state what the code does *)

(** The offset just past the [k]-th newline of [text], or the length
    of [text] when it has fewer. *)
Fixpoint lineOffset (text : bytes) (k : nat) : Z :=
  match k with
  | O => 0
  | S k' =>
      match text with
      | [] => 0
      | c :: t => 1 + lineOffset t (if byte_eqb c NL then k' else k)
      end
  end.

Fixpoint countNL (text : bytes) : nat :=
  match text with
  | [] => O
  | c :: t => if byte_eqb c NL then S (countNL t) else countNL t
  end.

(** A diff line that the loop passes over: blank, or a content line. *)
Definition isSkipped (line : bytes) : bool :=
  match line with
  | [] => true
  | c0 :: _ => byte_eqb c0 "<"%char || byte_eqb c0 "-"%char || byte_eqb c0 ">"%char
  end.

(** What may come right after an address call with format [fmt] that
    returned the error [err]: a write to [data], of one newline when
    the address is the [$] of the end-of-file marker (whose error the
    loop does not look at), and only after an address that was
    accepted otherwise; or the log of the error of an address other
    than [$]. *)
Definition afterAddr (fmt : bytes) (err : bool) (e : event) : bool :=
  match e with
  | EvWrite file data _ =>
      bytes_eqb file (B "data") &&
      (if bytes_eqb fmt (B "$") then bytes_eqb data [NL] else negb err)
  | EvLog LogErr => err && negb (bytes_eqb fmt (B "$"))
  | _ => false
  end.

(** A trace made of logs and of address calls that are each followed
    right away by what [afterAddr] allows: every write is a write to
    [data] after an address call, and a failed address other than [$]
    is followed by the log of its error, not by a write. *)
Fixpoint addressed (tr : list event) : bool :=
  match tr with
  | [] => true
  | EvAddr fmt _ err :: e :: rest => afterAddr fmt err e && addressed rest
  | EvLog _ :: rest => addressed rest
  | _ => false
  end.

(** The events of [s] are those of [base] followed by an addressed
    trace. *)
Definition addressedSince {W : Type} (base : list event) (s : Session W) : Prop :=
  exists added, events s = base ++ added /\ addressed added = true.

(** * Properties *)

(** ** Loops *)

Section WhileFacts.
Context {St : Type}.
Variable cond : St -> outcome bool.
Variable body : St -> outcome St.

Lemma while_exit fuel s :
  cond s = Done false -> while cond body fuel s = Done s.
Proof. intros E. destruct fuel; simpl; rewrite E; reflexivity. Qed.

Lemma while_iter fuel s s' :
  cond s = Done true -> body s = Done s' ->
  while cond body (S fuel) s = while cond body fuel s'.
Proof. intros E1 E2. simpl. rewrite E1, E2. reflexivity. Qed.

End WhileFacts.

(** ** Indexing and slicing *)

Lemma len_nonneg (s : bytes) : 0 <= len s.
Proof. unfold len. lia. Qed.

Lemma len_app (a b : bytes) : len (a ++ b) = len a + len b.
Proof. unfold len. rewrite length_app. lia. Qed.

Lemma len_cons (c : byte) (s : bytes) : len (c :: s) = 1 + len s.
Proof. unfold len. simpl length. lia. Qed.

Lemma len_nil : len [] = 0.
Proof. reflexivity. Qed.

Lemma skipn_len_nil (s : bytes) (i : Z) :
  0 <= i <= len s -> skipn (Z.to_nat i) s = [] -> i = len s.
Proof.
  intros Hi E. apply (f_equal (@length byte)) in E.
  rewrite length_skipn in E. simpl in E. unfold len in *. lia.
Qed.

Lemma skipn_cons_lt (s : bytes) (i : Z) ch t :
  0 <= i <= len s -> skipn (Z.to_nat i) s = ch :: t ->
  i < len s /\ idx s i = Done ch /\ skipn (Z.to_nat (i + 1)) s = t.
Proof.
  intros Hi E.
  assert (Hlt : i < len s).
  { apply (f_equal (@length byte)) in E. rewrite length_skipn in E.
    simpl in E. unfold len in *. lia. }
  split; [assumption|]. split.
  - unfold idx.
    replace ((0 <=? i) && (i <? len s)) with true
      by (symmetry; apply andb_true_iff; split; [apply Z.leb_le | apply Z.ltb_lt]; lia).
    rewrite <- (firstn_skipn (Z.to_nat i) s) at 1. rewrite E.
    rewrite nth_error_app2 by (rewrite length_firstn; lia).
    rewrite length_firstn.
    replace (Z.to_nat i - Nat.min (Z.to_nat i) (length s))%nat with O
      by (unfold len in *; lia).
    reflexivity.
  - replace (Z.to_nat (i + 1)) with (1 + Z.to_nat i)%nat by lia.
    rewrite <- skipn_skipn. rewrite E. reflexivity.
Qed.

Lemma slice_ok (s : bytes) (lo hi : Z) :
  0 <= lo <= hi -> hi <= len s ->
  slice s lo hi = Done (firstn (Z.to_nat (hi - lo)) (skipn (Z.to_nat lo) s)).
Proof.
  intros H1 H2. unfold slice.
  replace ((0 <=? lo) && (lo <=? hi) && (hi <=? len s)) with true; [reflexivity|].
  symmetry. rewrite !andb_true_iff, !Z.leb_le. lia.
Qed.

Lemma slice_app_left (a b : bytes) : slice (a ++ b) 0 (len a) = Done a.
Proof.
  rewrite slice_ok by (rewrite ?len_app; pose proof (len_nonneg a);
                       pose proof (len_nonneg b); lia).
  simpl. rewrite Z.sub_0_r. unfold len. rewrite Nat2Z.id.
  rewrite firstn_app, firstn_all, Nat.sub_diag. simpl. rewrite app_nil_r. reflexivity.
Qed.

Lemma slice_app_right (a b : bytes) :
  slice (a ++ b) (len a) (len (a ++ b)) = Done b.
Proof.
  rewrite slice_ok by (rewrite ?len_app; pose proof (len_nonneg a);
                       pose proof (len_nonneg b); lia).
  rewrite len_app. replace (len a + len b - len a) with (len b) by lia.
  unfold len. rewrite !Nat2Z.id.
  rewrite skipn_app, skipn_all, Nat.sub_diag. simpl. rewrite firstn_all. reflexivity.
Qed.

(** A scanning loop over [text] computes [scanRun] on what is left of
    the text, and needs no more iterations than that has bytes. *)
Lemma while_scan (text : bytes) (guard : cursor -> bool)
    (step : cursor -> byte -> cursor) :
  (forall c ch, cur_i (step c ch) = cur_i c + 1) ->
  forall fuel c,
    0 <= cur_i c <= len text ->
    (length (skipn (Z.to_nat (cur_i c)) text) <= fuel)%nat ->
    while (scanCond text guard) (scanBody text step) fuel c
    = Done (scanRun guard step (skipn (Z.to_nat (cur_i c)) text) c).
Proof.
  intros Hstep fuel.
  induction fuel as [|fuel IH]; intros c Hi Hfuel;
    destruct (skipn (Z.to_nat (cur_i c)) text) as [|ch t] eqn:E.
  - simpl scanRun. apply while_exit. unfold scanCond.
    rewrite (skipn_len_nil _ _ Hi E), Z.ltb_irrefl. reflexivity.
  - simpl in Hfuel. lia.
  - simpl scanRun. apply while_exit. unfold scanCond.
    rewrite (skipn_len_nil _ _ Hi E), Z.ltb_irrefl. reflexivity.
  - destruct (skipn_cons_lt _ _ _ _ Hi E) as (Hlt & Hidx & Hnext).
    simpl scanRun. destruct (guard c) eqn:G.
    + rewrite (while_iter _ _ fuel c (step c ch)).
      * rewrite IH; rewrite Hstep.
        -- rewrite Hnext. reflexivity.
        -- lia.
        -- rewrite Hnext. simpl in Hfuel. lia.
      * unfold scanCond. rewrite G, (proj2 (Z.ltb_lt _ _) Hlt). reflexivity.
      * unfold scanBody. rewrite Hidx. reflexivity.
    + apply while_exit. unfold scanCond. rewrite G, andb_false_r. reflexivity.
Qed.

Lemma skipStep_i c ch : cur_i (skipStep c ch) = cur_i c + 1.
Proof. unfold skipStep. destruct (byte_eqb ch NL); reflexivity. Qed.

Lemma takeStep_i c ch : cur_i (takeStep c ch) = cur_i c + 1.
Proof. unfold takeStep. destruct (byte_eqb ch NL); reflexivity. Qed.

Lemma scanRun_i guard step rest :
  (forall c ch, cur_i (step c ch) = cur_i c + 1) ->
  forall c, cur_i c <= cur_i (scanRun guard step rest c) <= cur_i c + len rest.
Proof.
  intros Hstep. induction rest as [|ch t IH]; intros c; simpl.
  - rewrite len_nil. lia.
  - rewrite len_cons. pose proof (len_nonneg t).
    destruct (guard c); [|lia].
    specialize (IH (step c ch)). rewrite Hstep in IH. lia.
Qed.

(** [findBounds] as two scans, the second from where the first stopped. *)
Lemma findBounds_scan (text : bytes) (start end_ : Z) :
  let c1 := scanRun skipGuard skipStep text (Cursor 0 (wrap (start - 1)) end_) in
  let c2 := scanRun takeGuard takeStep (skipn (Z.to_nat (cur_i c1)) text) c1 in
  findBounds text start end_ = Done (cur_i c1, cur_i c2)
  /\ 0 <= cur_i c1 <= cur_i c2 /\ cur_i c2 <= len text.
Proof.
  intros c1 c2. unfold findBounds.
  rewrite (while_scan text skipGuard skipStep skipStep_i) by
    (simpl; rewrite ?length_skipn; pose proof (len_nonneg text); lia).
  simpl (skipn (Z.to_nat (cur_i _)) text). fold c1. simpl obind.
  pose proof (scanRun_i skipGuard skipStep text skipStep_i
                (Cursor 0 (wrap (start - 1)) end_)) as H1.
  fold c1 in H1. simpl in H1.
  rewrite (while_scan text takeGuard takeStep takeStep_i) by
    (rewrite ?length_skipn; lia).
  fold c2. simpl obind.
  pose proof (scanRun_i takeGuard takeStep (skipn (Z.to_nat (cur_i c1)) text)
                takeStep_i c1) as H2.
  fold c2 in H2.
  assert (len (skipn (Z.to_nat (cur_i c1)) text) = len text - cur_i c1).
  { unfold len in *. rewrite length_skipn. lia. }
  split; [reflexivity | lia].
Qed.

(** ** The span extractor *)

Lemma wrap_id (z : Z) : in_int z -> wrap z = z.
Proof.
  unfold in_int, minInt, maxInt, wrap. intros Hz.
  rewrite Z.mod_small; lia.
Qed.

Lemma lineCount_nonneg (text : bytes) : 0 <= lineCount text.
Proof.
  induction text as [|c t IH]; simpl; [lia|].
  destruct t; [lia|]. destruct (byte_eqb c NL); lia.
Qed.

Lemma lineCount_cons (c : byte) (t : bytes) :
  1 <= lineCount (c :: t) /\
  lineCount t + (if byte_eqb c NL then 1 else 0) <= lineCount (c :: t).
Proof.
  pose proof (lineCount_nonneg t) as Ht.
  destruct t as [|c' t'].
  - simpl. destruct (byte_eqb c NL); lia.
  - change (lineCount (c :: c' :: t'))
      with ((if byte_eqb c NL then 1 else 0) + lineCount (c' :: t')).
    assert (1 <= lineCount (c' :: t')).
    { clear Ht. revert c'. induction t' as [|c'' t'' IH]; intros c'; [simpl; lia|].
      change (lineCount (c' :: c'' :: t''))
        with ((if byte_eqb c' NL then 1 else 0) + lineCount (c'' :: t'')).
      specialize (IH c''). destruct (byte_eqb c' NL); lia. }
    destruct (byte_eqb c NL); lia.
Qed.

(** With at least as many lines asked for as the text has, the first
    loop runs to the end of the text. *)
Lemma skip_beyond (rest : bytes) :
  forall c, lineCount rest <= cur_start c <= maxInt ->
    cur_i (scanRun skipGuard skipStep rest c) = cur_i c + len rest.
Proof.
  induction rest as [|ch t IH]; intros c Hc.
  - simpl. rewrite len_nil. lia.
  - destruct (lineCount_cons ch t) as [H1 H2].
    simpl scanRun. unfold skipGuard at 1.
    replace (0 <? cur_start c) with true by (symmetry; apply Z.ltb_lt; lia).
    rewrite IH.
    + rewrite skipStep_i, len_cons. lia.
    + unfold skipStep. destruct (byte_eqb ch NL); simpl.
      * rewrite wrap_id by (unfold in_int, minInt, maxInt in *; lia). lia.
      * lia.
Qed.

Lemma take_beyond (rest : bytes) :
  forall c, lineCount rest <= cur_end c <= maxInt ->
    cur_i (scanRun takeGuard takeStep rest c) = cur_i c + len rest.
Proof.
  induction rest as [|ch t IH]; intros c Hc.
  - simpl. rewrite len_nil. lia.
  - destruct (lineCount_cons ch t) as [H1 H2].
    simpl scanRun. unfold takeGuard at 1.
    replace (0 <? cur_end c) with true by (symmetry; apply Z.ltb_lt; lia).
    rewrite IH.
    + rewrite takeStep_i, len_cons. lia.
    + unfold takeStep. destruct (byte_eqb ch NL); simpl.
      * rewrite wrap_id by (unfold in_int, minInt, maxInt in *; lia). lia.
      * lia.
Qed.

(** The first loop leaves [end] above the number of lines still ahead
    when it was above the number of lines of the text. *)
Lemma skip_keeps_end (rest : bytes) :
  forall c, lineCount rest < cur_end c <= maxInt ->
    let c' := scanRun skipGuard skipStep rest c in
    lineCount (skipn (Z.to_nat (cur_i c' - cur_i c)) rest) < cur_end c' <= maxInt.
Proof.
  induction rest as [|ch t IH]; intros c Hc.
  - simpl. rewrite skipn_nil. simpl in *. lia.
  - destruct (lineCount_cons ch t) as [H1 H2].
    simpl scanRun. destruct (skipGuard c).
    + assert (Hs : lineCount t < cur_end (skipStep c ch) <= maxInt).
      { unfold skipStep. destruct (byte_eqb ch NL); simpl.
        - rewrite wrap_id by (unfold in_int, minInt, maxInt in *; lia). lia.
        - lia. }
      specialize (IH _ Hs). cbv zeta in IH |- *.
      pose proof (scanRun_i skipGuard skipStep t skipStep_i (skipStep c ch)) as Hi.
      rewrite skipStep_i in IH, Hi.
      replace (Z.to_nat (cur_i (scanRun skipGuard skipStep t (skipStep c ch)) - cur_i c))
        with (S (Z.to_nat (cur_i (scanRun skipGuard skipStep t (skipStep c ch))
                            - (cur_i c + 1)))) by lia.
      exact IH.
    + cbv zeta. rewrite Z.sub_diag. simpl skipn. lia.
Qed.

(** [findLines] returns for every text and every pair of integers, and
    what it returns is a slice of the text. *)
Lemma findLines_returns (text : bytes) (start end_ : Z) :
  exists startByte endByte,
    0 <= startByte <= endByte /\ endByte <= len text /\
    findBounds text start end_ = Done (startByte, endByte) /\
    findLines text start end_
    = Done (firstn (Z.to_nat (endByte - startByte))
                   (skipn (Z.to_nat startByte) text)).
Proof.
  destruct (findBounds_scan text start end_) as (E & H1 & H2).
  cbv zeta in E, H1, H2.
  set (c1 := scanRun skipGuard skipStep text (Cursor 0 (wrap (start - 1)) end_)) in *.
  set (c2 := scanRun takeGuard takeStep (skipn (Z.to_nat (cur_i c1)) text) c1) in *.
  exists (cur_i c1), (cur_i c2). repeat split; try lia; try assumption.
  unfold findLines. rewrite E. simpl. apply slice_ok; lia.
Qed.

(** C9.  [findLines] is total and stays in bounds: for every buffer and
    every pair of integers it indexes nothing out of range and returns
    the slice [text[startByte:endByte]] with
    [0 <= startByte <= endByte <= len(text)]; when [start] exceeds the
    number of lines of the buffer, the slice is empty. *)
Theorem findLines_in_bounds (text : bytes) (start end_ : Z) :
  (exists startByte endByte,
      0 <= startByte <= endByte /\ endByte <= len text /\
      findBounds text start end_ = Done (startByte, endByte) /\
      findLines text start end_
      = Done (firstn (Z.to_nat (endByte - startByte))
                     (skipn (Z.to_nat startByte) text)))
  /\ (in_int start -> lineCount text < start ->
      findLines text start end_ = Done []).
Proof.
  split; [apply findLines_returns|].
  intros Hin Hlines.
  destruct (findBounds_scan text start end_) as (E & H1 & H2).
  cbv zeta in E, H1, H2.
  set (c1 := scanRun skipGuard skipStep text (Cursor 0 (wrap (start - 1)) end_)) in *.
  set (c2 := scanRun takeGuard takeStep (skipn (Z.to_nat (cur_i c1)) text) c1) in *.
  pose proof (lineCount_nonneg text) as Hn.
  assert (Hc1 : cur_i c1 = len text).
  { subst c1. rewrite skip_beyond; simpl.
    - lia.
    - rewrite wrap_id; unfold in_int, minInt, maxInt in *; lia. }
  unfold findLines. rewrite E. simpl.
  rewrite slice_ok by lia.
  replace (cur_i c2 - cur_i c1) with 0 by lia. reflexivity.
Qed.

Lemma findLines_in_bounds_witness :
  in_int 5 /\ lineCount (unlines [B "a"; B "b"]) < 5 /\
  findLines (unlines [B "a"; B "b"]) 5 7 = Done [].
Proof.
  assert (H1 : in_int 5) by (unfold in_int, minInt, maxInt; lia).
  assert (H2 : lineCount (unlines [B "a"; B "b"]) < 5) by (vm_compute; reflexivity).
  split; [exact H1|]. split; [exact H2|].
  exact (proj2 (findLines_in_bounds (unlines [B "a"; B "b"]) 5 7) H1 H2).
Defined.

(** C6.  On the buffer of the three lines [a], [b], [c], lines (1,1)
    are the first line and lines (2,3) the last two; and for every
    buffer, when [end] exceeds the number of lines the result runs
    from [startByte] through the end of the buffer, without a panic. *)
Theorem findLines_spans :
  findLines (unlines [B "a"; B "b"; B "c"]) 1 1 = Done (unlines [B "a"])
  /\ findLines (unlines [B "a"; B "b"; B "c"]) 2 3 = Done (unlines [B "b"; B "c"])
  /\ forall (text : bytes) (start end_ : Z),
       in_int start -> in_int end_ -> lineCount text < end_ ->
       exists startByte,
         0 <= startByte <= len text /\
         findBounds text start end_ = Done (startByte, len text) /\
         findLines text start end_ = Done (skipn (Z.to_nat startByte) text).
Proof.
  split; [reflexivity|]. split; [reflexivity|].
  intros text start end_ Hs He Hlines.
  destruct (findBounds_scan text start end_) as (E & H1 & H2).
  cbv zeta in E, H1, H2.
  set (c0 := Cursor 0 (wrap (start - 1)) end_) in *.
  set (c1 := scanRun skipGuard skipStep text c0) in *.
  set (c2 := scanRun takeGuard takeStep (skipn (Z.to_nat (cur_i c1)) text) c1) in *.
  assert (Hk : lineCount (skipn (Z.to_nat (cur_i c1 - cur_i c0)) text)
               < cur_end c1 <= maxInt).
  { apply (skip_keeps_end text c0). simpl. unfold in_int in He. lia. }
  simpl (cur_i c0) in Hk. rewrite Z.sub_0_r in Hk.
  assert (Hc2 : cur_i c2 = len text).
  { subst c2. rewrite take_beyond by lia.
    unfold len. rewrite length_skipn. unfold len in H2. lia. }
  exists (cur_i c1). rewrite Hc2 in E. split; [lia|]. split; [exact E|].
  unfold findLines. rewrite E. simpl.
  rewrite slice_ok by lia.
  rewrite firstn_all2; [reflexivity|].
  rewrite length_skipn. unfold len. lia.
Qed.

Lemma findLines_spans_witness :
  in_int 2 /\ in_int 10 /\ lineCount (unlines [B "a"; B "b"; B "c"]) < 10 /\
  exists startByte,
    0 <= startByte <= len (unlines [B "a"; B "b"; B "c"]) /\
    findBounds (unlines [B "a"; B "b"; B "c"]) 2 10
    = Done (startByte, len (unlines [B "a"; B "b"; B "c"])) /\
    findLines (unlines [B "a"; B "b"; B "c"]) 2 10
    = Done (skipn (Z.to_nat startByte) (unlines [B "a"; B "b"; B "c"])).
Proof.
  assert (H1 : in_int 2) by (unfold in_int, minInt, maxInt; lia).
  assert (H2 : in_int 10) by (unfold in_int, minInt, maxInt; lia).
  assert (H3 : lineCount (unlines [B "a"; B "b"; B "c"]) < 10)
    by (vm_compute; reflexivity).
  split; [exact H1|]. split; [exact H2|]. split; [exact H3|].
  exact (proj2 (proj2 findLines_spans) (unlines [B "a"; B "b"; B "c"]) 2 10 H1 H2 H3).
Defined.

(** ** Decimal numerals *)

Lemma byte_eqb_eq (a b : byte) : byte_eqb a b = true <-> a = b.
Proof. apply Ascii.eqb_eq. Qed.

Lemma byte_eqb_refl (a : byte) : byte_eqb a a = true.
Proof. apply Ascii.eqb_refl. Qed.

Lemma bytes_eqb_eq (a b : bytes) : bytes_eqb a b = true <-> a = b.
Proof.
  revert b. induction a as [|x a IH]; intros [|y b]; simpl; split;
    try congruence; try reflexivity.
  - rewrite andb_true_iff, byte_eqb_eq, IH. intros [-> ->]. reflexivity.
  - intros E. injection E as -> ->. rewrite byte_eqb_refl. apply IH. reflexivity.
Qed.

Lemma bytes_eqb_refl (a : bytes) : bytes_eqb a a = true.
Proof. apply bytes_eqb_eq. reflexivity. Qed.

Lemma bytes_eqb_neq (a b : bytes) : a <> b -> bytes_eqb a b = false.
Proof.
  intros N. destruct (bytes_eqb a b) eqn:E; [|reflexivity].
  apply bytes_eqb_eq in E. contradiction.
Qed.

(** A byte that passes the test [p] is not the byte [c] that fails it. *)
Lemma byte_eqb_by (p : byte -> bool) (c x : byte) :
  p x = true -> p c = false -> byte_eqb x c = false.
Proof.
  intros Hx Hc. destruct (byte_eqb x c) eqn:E; [|reflexivity].
  apply byte_eqb_eq in E. congruence.
Qed.

Lemma digitChar_val (d : Z) : 0 <= d < 10 -> digitVal (digitChar d) = Some d.
Proof.
  intros Hd.
  assert (d = 0 \/ d = 1 \/ d = 2 \/ d = 3 \/ d = 4 \/ d = 5 \/ d = 6 \/
          d = 7 \/ d = 8 \/ d = 9) as Hcases by lia.
  repeat (destruct Hcases as [-> | Hcases]; [reflexivity|]).
  subst d. reflexivity.
Qed.

Lemma digitChar_digit (d : Z) : 0 <= d < 10 -> isDigit (digitChar d) = true.
Proof.
  intros Hd.
  assert (d = 0 \/ d = 1 \/ d = 2 \/ d = 3 \/ d = 4 \/ d = 5 \/ d = 6 \/
          d = 7 \/ d = 8 \/ d = 9) as Hcases by lia.
  repeat (destruct Hcases as [-> | Hcases]; [reflexivity|]).
  subst d. reflexivity.
Qed.

Lemma digitsOf_nonempty (fuel : nat) :
  forall n acc, exists c t, digitsOf (S fuel) n acc = c :: t.
Proof.
  induction fuel as [|fuel IH]; intros n acc.
  - simpl. destruct (n <? 10); eauto.
  - change (digitsOf (S (S fuel)) n acc)
      with (if n <? 10 then digitChar (n mod 10) :: acc
            else digitsOf (S fuel) (n / 10) (digitChar (n mod 10) :: acc)).
    destruct (n <? 10); eauto.
Qed.

Lemma digitsOf_digits (fuel : nat) :
  forall n acc, 0 <= n -> Forall (fun c => isDigit c = true) acc ->
    Forall (fun c => isDigit c = true) (digitsOf fuel n acc).
Proof.
  induction fuel as [|fuel IH]; intros n acc Hn Hacc; simpl; [assumption|].
  assert (Hd : isDigit (digitChar (n mod 10)) = true)
    by (apply digitChar_digit, Z.mod_pos_bound; lia).
  destruct (n <? 10).
  - constructor; assumption.
  - apply IH; [apply Z.div_pos; lia | constructor; assumption].
Qed.

Lemma parseDigits_digitsOf (fuel : nat) :
  forall n acc, 0 <= n < 2 ^ Z.of_nat fuel ->
    parseDigits (digitsOf fuel n acc) 0 = parseDigits acc n.
Proof.
  induction fuel as [|fuel IH]; intros n acc Hn.
  - simpl in *. replace n with 0 by lia. reflexivity.
  - simpl digitsOf.
    assert (Hd : digitVal (digitChar (n mod 10)) = Some (n mod 10))
      by (apply digitChar_val, Z.mod_pos_bound; lia).
    destruct (n <? 10) eqn:E.
    + apply Z.ltb_lt in E. simpl. rewrite Hd.
      rewrite Z.mod_small by lia. reflexivity.
    + apply Z.ltb_ge in E. rewrite IH.
      * simpl. rewrite Hd. f_equal.
        pose proof (Z.div_mod n 10). lia.
      * rewrite Nat2Z.inj_succ, Z.pow_succ_r in Hn by lia.
        split; [apply Z.div_pos; lia|].
        apply Z.div_lt_upper_bound; lia.
Qed.

Lemma log2_fuel (n : Z) : 0 <= n -> 0 <= n < 2 ^ Z.of_nat (S (Z.to_nat (Z.log2 n))).
Proof.
  intros Hn. split; [assumption|].
  rewrite Nat2Z.inj_succ, Z2Nat.id by apply Z.log2_nonneg.
  destruct (Z.eq_dec n 0) as [->|Hz]; [reflexivity|].
  apply Z.log2_spec. lia.
Qed.

(** The numeral of a natural number: digits only, at least one. *)
Lemma itoa_nonneg (n : Z) :
  0 <= n ->
  Forall (fun c => isDigit c = true) (itoa n) /\
  (exists c t, itoa n = c :: t) /\
  parseDigits (itoa n) 0 = Some n.
Proof.
  intros Hn. unfold itoa.
  replace (n <? 0) with false by (symmetry; apply Z.ltb_ge; lia).
  split; [apply digitsOf_digits; [assumption | constructor]|].
  split; [apply digitsOf_nonempty|].
  rewrite parseDigits_digitsOf by (apply log2_fuel; assumption). reflexivity.
Qed.

Lemma itoa_numchars (n : Z) : Forall (fun c => isNumChar c = true) (itoa n).
Proof.
  assert (Hd : forall l, Forall (fun c => isDigit c = true) l ->
                         Forall (fun c => isNumChar c = true) l).
  { intros l. apply Forall_impl. intros c Hc. unfold isNumChar. rewrite Hc. reflexivity. }
  destruct (Z.ltb_spec n 0) as [Hneg|Hpos].
  - unfold itoa. replace (n <? 0) with true by (symmetry; apply Z.ltb_lt; lia).
    constructor; [reflexivity|].
    apply Hd, digitsOf_digits; [lia | constructor].
  - apply Hd, itoa_nonneg. assumption.
Qed.

(** [strconv.Atoi] reads back what [%d] prints. *)
Lemma Atoi_itoa (n : Z) : in_int n -> Atoi (itoa n) = Some n.
Proof.
  intros Hin.
  assert (Hrange : (minInt <=? n) && (n <=? maxInt) = true)
    by (unfold in_int in Hin; rewrite andb_true_iff, !Z.leb_le; lia).
  destruct (Z.ltb_spec n 0) as [Hneg|Hpos].
  - unfold itoa. replace (n <? 0) with true by (symmetry; apply Z.ltb_lt; lia).
    unfold Atoi. rewrite byte_eqb_refl.
    destruct (digitsOf_nonempty (Z.to_nat (Z.log2 (- n))) (- n) []) as (c & t & E).
    rewrite E, <- E.
    rewrite parseDigits_digitsOf by (apply log2_fuel; lia).
    simpl parseDigits. cbv iota beta. rewrite Z.opp_involutive, Hrange. reflexivity.
  - destruct (itoa_nonneg n Hpos) as (Hd & (c & t & E) & Hp).
    rewrite E in Hd, Hp |- *. inversion Hd as [|? ? Hc _]; subst.
    unfold Atoi.
    rewrite (byte_eqb_by isDigit "-"%char c Hc eq_refl).
    rewrite (byte_eqb_by isDigit "+"%char c Hc eq_refl).
    rewrite Hp, Hrange. reflexivity.
Qed.

Lemma Index_absent (s : bytes) (sep : byte) :
  Forall (fun c => byte_eqb c sep = false) s -> Index s sep = -1.
Proof.
  induction 1 as [|c t Hc _ IH]; simpl; [reflexivity|].
  rewrite Hc, IH. reflexivity.
Qed.

Lemma Index_first (a b : bytes) (sep : byte) :
  Forall (fun c => byte_eqb c sep = false) a -> Index (a ++ sep :: b) sep = len a.
Proof.
  induction 1 as [|c t Hc _ IH]; simpl.
  - rewrite byte_eqb_refl. reflexivity.
  - rewrite Hc, IH, len_cons. pose proof (len_nonneg t).
    replace (len t <? 0) with false by (symmetry; apply Z.ltb_ge; lia). lia.
Qed.

Lemma numchars_no (c : byte) (s : bytes) :
  isNumChar c = false ->
  Forall (fun x => isNumChar x = true) s ->
  Forall (fun x => byte_eqb x c = false) s.
Proof.
  intros Hc. apply Forall_impl. intros x Hx.
  exact (byte_eqb_by isNumChar c x Hx Hc).
Qed.

(** ** The parser *)

Lemma Index_range (s : bytes) (sep : byte) :
  Index s sep = -1 \/ 0 <= Index s sep < len s.
Proof.
  induction s as [|c t IH]; simpl; [left; reflexivity|].
  rewrite len_cons. pose proof (len_nonneg t).
  destruct (byte_eqb c sep); [right; lia|].
  destruct IH as [-> | IH]; [left; reflexivity|].
  replace (Index t sep <? 0) with false by (symmetry; apply Z.ltb_ge; lia).
  right. lia.
Qed.

Lemma opIndex_range (line : bytes) : 0 <= opIndex line <= len line.
Proof.
  induction line as [|c t IH]; cbn [opIndex]; [rewrite len_nil; lia|].
  rewrite len_cons. destruct (isOp c); lia.
Qed.

Lemma opIndex_first (before after : bytes) (op : byte) :
  Forall (fun c => isOp c = false) before -> isOp op = true ->
  opIndex (before ++ op :: after) = len before.
Proof.
  intros Hb Hop. induction Hb as [|c t Hc _ IH]; simpl.
  - rewrite Hop. reflexivity.
  - rewrite Hc, IH, len_cons. reflexivity.
Qed.

Lemma opIndex_none (line : bytes) :
  Forall (fun c => isOp c = false) line -> opIndex line = len line.
Proof.
  induction 1 as [|c t Hc _ IH]; simpl; [reflexivity|].
  rewrite Hc, IH, len_cons. reflexivity.
Qed.

Lemma while_opCond (line : bytes) :
  forall fuel j,
    0 <= j <= len line ->
    (length (skipn (Z.to_nat j) line) <= fuel)%nat ->
    while (opCond line) (fun j => Done (j + 1)) fuel j
    = Done (j + opIndex (skipn (Z.to_nat j) line)).
Proof.
  induction fuel as [|fuel IH]; intros j Hj Hfuel;
    destruct (skipn (Z.to_nat j) line) as [|ch t] eqn:E.
  - cbn [opIndex]. rewrite Z.add_0_r. apply while_exit. unfold opCond.
    rewrite (skipn_len_nil _ _ Hj E), Z.ltb_irrefl. reflexivity.
  - simpl in Hfuel. lia.
  - cbn [opIndex]. rewrite Z.add_0_r. apply while_exit. unfold opCond.
    rewrite (skipn_len_nil _ _ Hj E), Z.ltb_irrefl. reflexivity.
  - destruct (skipn_cons_lt _ _ _ _ Hj E) as (Hlt & Hidx & Hnext).
    assert (Hc : opCond line j = Done (negb (isOp ch))).
    { unfold opCond. rewrite (proj2 (Z.ltb_lt _ _) Hlt), Hidx. reflexivity. }
    cbn [opIndex]. destruct (isOp ch).
    + rewrite Z.add_0_r. apply while_exit. exact Hc.
    + rewrite (while_iter _ _ fuel j (j + 1) Hc eq_refl).
      rewrite IH.
      * rewrite Hnext. f_equal. lia.
      * lia.
      * rewrite Hnext. simpl in Hfuel. lia.
Qed.

(** The scan for the operator stops at the first of [a], [c], [d], or
    at the end of the line. *)
Lemma scanOp_opIndex (line : bytes) : scanOp line = Done (opIndex line).
Proof.
  unfold scanOp. rewrite while_opCond.
  - reflexivity.
  - pose proof (len_nonneg line). lia.
  - simpl. lia.
Qed.

Section ParserFacts.
Context {W : Type} `{Backend W}.
Local Open Scope go_scope.

Lemma parseSpan_bare (text : bytes) (s : Session W) :
  Index text ","%char < 0 ->
  parseSpan text s
  = match Atoi text with
    | Some n => Done ((n, n), s)
    | None => Done ((0, 0), emit (EvLog (LogBadSpan text)) s)
    end.
Proof.
  intros Hi. unfold parseSpan.
  rewrite (proj2 (Z.ltb_lt _ _) Hi).
  destruct (Atoi text); reflexivity.
Qed.

Lemma parseSpan_comma (lo hi : bytes) (s : Session W) :
  Forall (fun c => byte_eqb c ","%char = false) lo ->
  parseSpan (lo ++ ","%char :: hi) s
  = match Atoi lo, Atoi hi with
    | Some start, Some end_ => Done ((start, end_), s)
    | _, _ => Done ((0, 0), emit (EvLog (LogBadSpan (lo ++ ","%char :: hi))) s)
    end.
Proof.
  intros Hlo. unfold parseSpan.
  rewrite (Index_first lo hi _ Hlo).
  pose proof (len_nonneg lo).
  replace (len lo <? 0) with false by (symmetry; apply Z.ltb_ge; lia).
  unfold bind, lift.
  rewrite slice_app_left.
  replace (lo ++ ","%char :: hi) with ((lo ++ [","%char]) ++ hi) at 1 2
    by (rewrite <- app_assoc; reflexivity).
  replace (len lo + 1) with (len (lo ++ [","%char]))
    by (rewrite len_app, len_cons, len_nil; lia).
  rewrite slice_app_right.
  destruct (Atoi lo), (Atoi hi); reflexivity.
Qed.

(** [parseSpan] always returns, and leaves the window alone: at most
    it logs that the span does not parse. *)
Lemma parseSpan_quiet (text : bytes) (s : Session W) :
  exists r s', parseSpan text s = Done (r, s') /\
               (s' = s \/ s' = emit (EvLog (LogBadSpan text)) s).
Proof.
  destruct (Index_range text ","%char) as [Hi | Hi].
  - rewrite parseSpan_bare by lia. destruct (Atoi text); eauto.
  - unfold parseSpan.
    replace (Index text ","%char <? 0) with false by (symmetry; apply Z.ltb_ge; lia).
    unfold bind, lift.
    rewrite !slice_ok by lia.
    match goal with |- context [Atoi ?a] => destruct (Atoi a) end;
    match goal with
    | |- context [Atoi ?a] => destruct (Atoi a)
    | _ => idtac
    end; unfold log, ret; eauto.
Qed.

(** What one iteration does on a line that is looked at as a hunk
    header and has an operator letter. *)
Lemma replayLine_header (new before after : bytes) (op : byte) (s : Session W) :
  isHeaderCandidate (before ++ op :: after) = true ->
  Forall (fun c => isOp c = false) before -> isOp op = true ->
  replayLine new (before ++ op :: after) s
  = (' (oldStart, oldEnd) <- parseSpan before ;;
     ' (newStart, newEnd) <- parseSpan after ;;
     if (oldStart =? 0) || (newStart =? 0) then ret Next
     else applyOp new op oldStart oldEnd newStart newEnd ;; ret Next) s.
Proof.
  intros Hcand Hb Hop.
  set (line := before ++ op :: after) in *.
  assert (Hj : opIndex line = len before) by (apply opIndex_first; assumption).
  assert (Hlen : len line = len before + 1 + len after).
  { subst line. rewrite len_app, len_cons. lia. }
  pose proof (len_nonneg before) as Hlb. pose proof (len_nonneg after) as Hla.
  assert (Hop_at : idx line (len before) = Done op).
  { destruct (skipn_cons_lt line (len before) op after) as (_ & Hidx & _).
    - lia.
    - subst line. unfold len.
      rewrite Nat2Z.id, skipn_app, skipn_all, Nat.sub_diag. reflexivity.
    - exact Hidx. }
  assert (Hpre : slice line 0 (len before) = Done before)
    by (subst line; apply slice_app_left).
  assert (Hpost : slice line (len before + 1) (len line) = Done after).
  { subst line.
    replace (before ++ op :: after) with ((before ++ [op]) ++ after)
      by (rewrite <- app_assoc; reflexivity).
    replace (len before + 1) with (len (before ++ [op]))
      by (rewrite len_app, len_cons, len_nil; lia).
    apply slice_app_right. }
  assert (Hc0 : exists c0 rest, line = c0 :: rest /\ idx line 0 = Done c0).
  { destruct line as [|c0 rest]; [discriminate|]. eauto. }
  destruct Hc0 as (c0 & rest & El & Hidx0).
  unfold isHeaderCandidate in Hcand. rewrite El in Hcand.
  apply andb_true_iff in Hcand as [Hm Hc0].
  apply negb_true_iff in Hm. apply negb_true_iff in Hc0.
  rewrite <- El in Hm.
  assert (Hne : bytes_eqb line [] = false) by (rewrite El; reflexivity).
  assert (Hlt : (len line <=? len before) = false) by (apply Z.leb_gt; lia).
  unfold replayLine, bind, lift.
  rewrite Hne, Hm, Hidx0. cbv beta iota. rewrite Hc0.
  rewrite scanOp_opIndex, Hj. cbv beta iota. rewrite Hlt, Hpre.
  destruct (parseSpan before s) as [[[oldStart oldEnd] s1]| |]; try reflexivity.
  rewrite Hpost.
  destruct (parseSpan after s1) as [[[newStart newEnd] s2]| |]; try reflexivity.
  destruct ((oldStart =? 0) || (newStart =? 0)); [reflexivity|].
  rewrite Hop_at. reflexivity.
Qed.
End ParserFacts.

(** ** Invariants of a run *)

Section RunFacts.
Context {W : Type} `{Backend W}.
Local Open Scope go_scope.

Variable I : Session W -> Prop.
Hypothesis I_log : forall m, keeps I (log m).
Hypothesis I_Addr : forall fmt args, keeps I (Addr fmt args).
Hypothesis I_Write : forall ftype data, keeps I (Write ftype data).
Hypothesis I_ReadAll : forall file, keeps I (ReadAll file).

Lemma keeps_ret {A : Type} (a : A) : keeps I (ret a).
Proof. intros s Hs. exists a, s. split; [reflexivity | assumption]. Qed.

Lemma keeps_bind {A C : Type} (m : M W A) (k : A -> M W C) :
  keeps I m -> (forall a, keeps I (k a)) -> keeps I (bind m k).
Proof.
  intros Hm Hk s Hs. destruct (Hm s Hs) as (a & s1 & E & Hs1).
  unfold bind. rewrite E. apply Hk. assumption.
Qed.

Lemma keeps_lift {A : Type} (o : outcome A) (a : A) :
  o = Done a -> keeps I (lift o).
Proof. intros -> s Hs. exists a, s. split; [reflexivity | assumption]. Qed.

Lemma keeps_bind_lift {A C : Type} (o : outcome A) (a : A) (k : A -> M W C) :
  o = Done a -> keeps I (k a) -> keeps I (bind (lift o) k).
Proof. intros -> Hk s Hs. unfold bind, lift. apply Hk. assumption. Qed.

Lemma keeps_parseSpan (text : bytes) : keeps I (parseSpan text).
Proof.
  intros s Hs. destruct (parseSpan_quiet text s) as (r & s' & E & [-> | ->]).
  - exists r, s. split; assumption.
  - destruct (I_log (LogBadSpan text) s Hs) as ([] & s1 & E1 & Hs1).
    injection E1 as <-. exists r. eexists. split; [exact E | assumption].
Qed.

Lemma keeps_findLines_Write (new : bytes) (newStart newEnd : Z) :
  keeps I (data <- lift (findLines new newStart newEnd) ;; Write (B "data") data).
Proof.
  destruct (findLines_returns new newStart newEnd)
    as (sb & eb & _ & _ & _ & E).
  apply keeps_bind; [exact (keeps_lift _ _ E) | intros; apply I_Write].
Qed.

Lemma keeps_applyOp (new : bytes) (op : byte) (oldStart oldEnd newStart newEnd : Z) :
  keeps I (applyOp new op oldStart oldEnd newStart newEnd).
Proof.
  unfold applyOp.
  destruct (byte_eqb op "a"%char); [|destruct (byte_eqb op "c"%char);
                                       [|destruct (byte_eqb op "d"%char)]].
  - apply keeps_bind; [apply I_Addr|]. intros [|]; [apply I_log|].
    apply keeps_findLines_Write.
  - apply keeps_bind; [apply I_Addr|]. intros [|]; [apply I_log|].
    apply keeps_findLines_Write.
  - apply keeps_bind; [apply I_Addr|]. intros [|]; [apply I_log | apply I_Write].
  - apply keeps_ret.
Qed.

(** One iteration of the loop returns, whatever the line. *)
Lemma keeps_replayLine (new line : bytes) : keeps I (replayLine new line).
Proof.
  unfold replayLine.
  destruct line as [|c0 rest] eqn:El; [apply keeps_ret|].
  rewrite <- El. replace (bytes_eqb line []) with false by (rewrite El; reflexivity).
  destruct (bytes_eqb line noNewline).
  { apply keeps_bind; [apply I_Addr|]. intros _.
    apply keeps_bind; [apply I_Write|]. intros _. apply keeps_ret. }
  apply (keeps_bind_lift _ c0); [rewrite El; reflexivity|].
  destruct (byte_eqb c0 "<"%char || byte_eqb c0 "-"%char || byte_eqb c0 ">"%char);
    [apply keeps_ret|].
  apply (keeps_bind_lift _ _ _ (scanOp_opIndex line)).
  pose proof (opIndex_range line) as Hj.
  destruct (Z.leb_spec (len line) (opIndex line)) as [Hge|Hlt].
  { apply keeps_bind; [apply I_log|]. intros _. apply keeps_ret. }
  apply (keeps_bind_lift _ _ _ (slice_ok line 0 (opIndex line) ltac:(lia) ltac:(lia))).
  apply keeps_bind; [apply keeps_parseSpan|]. intros [oldStart oldEnd].
  apply (keeps_bind_lift _ _ _
           (slice_ok line (opIndex line + 1) (len line) ltac:(lia) ltac:(lia))).
  apply keeps_bind; [apply keeps_parseSpan|]. intros [newStart newEnd].
  destruct ((oldStart =? 0) || (newStart =? 0)); [apply keeps_ret|].
  assert (Hop : exists op, idx line (opIndex line) = Done op).
  { unfold idx.
    replace ((0 <=? opIndex line) && (opIndex line <? len line)) with true
      by (symmetry; rewrite andb_true_iff, Z.leb_le, Z.ltb_lt; lia).
    destruct (nth_error line (Z.to_nat (opIndex line))) eqn:E; [eauto|].
    apply nth_error_None in E. unfold len in Hlt. lia. }
  destruct Hop as [op Hop].
  apply (keeps_bind_lift _ _ _ Hop).
  apply keeps_bind; [apply keeps_applyOp|]. intros _. apply keeps_ret.
Qed.

Lemma keeps_replayLines (new : bytes) (lines : list bytes) :
  keeps I (replayLines new lines).
Proof.
  induction lines as [|line rest IH]; simpl; [apply keeps_ret|].
  apply keeps_bind; [apply keeps_replayLine|].
  intros [|]; [exact IH | apply keeps_ret].
Qed.

End RunFacts.

(** ** The guard and the result of [reformat] *)

Section ReformatFacts.
Context {W : Type} `{Backend W}.
Local Open Scope go_scope.

Lemma existsb_snoc {A : Type} (f : A -> bool) (l : list A) (a : A) :
  existsb f (l ++ [a]) = existsb f l || f a.
Proof. rewrite existsb_app. simpl. rewrite orb_false_r. reflexivity. Qed.

Lemma written_log (m : logmsg) : keeps (@modifiedIffWritten W) (log m).
Proof.
  intros s Hs. eexists; eexists. split; [reflexivity|].
  unfold modifiedIffWritten, emit in *. simpl.
  rewrite existsb_snoc, orb_false_r. assumption.
Qed.

Lemma written_Addr (fmt : bytes) (args : list Z) :
  keeps (@modifiedIffWritten W) (Addr fmt args).
Proof.
  intros s Hs. unfold Addr.
  destruct (Win_Addr fmt args (win s)) as [err w']. eexists; eexists.
  split; [reflexivity|]. unfold modifiedIffWritten in *. simpl.
  rewrite existsb_snoc, orb_false_r. assumption.
Qed.

Lemma written_Write (ftype data : bytes) :
  keeps (@modifiedIffWritten W) (Write ftype data).
Proof.
  intros s Hs. unfold Write.
  destruct (Win_Write ftype data (win s)) as [err w']. eexists; eexists.
  split; [reflexivity|]. unfold modifiedIffWritten in *. simpl.
  rewrite existsb_snoc, orb_true_r. reflexivity.
Qed.

Lemma written_ReadAll (file : bytes) :
  keeps (@modifiedIffWritten W) (ReadAll file).
Proof.
  intros s Hs. unfold ReadAll.
  destruct (Win_ReadAll file (win s)) as [r w']. eexists; eexists.
  split; [reflexivity|]. unfold modifiedIffWritten in *. simpl.
  rewrite existsb_snoc, orb_false_r. assumption.
Qed.

(** C8, as the code has it.  [reformat] always returns, and the
    boolean it returns is true if and only if at least one write to
    the window was issued during the event, whether or not the
    window accepted it. *)
Theorem reformat_true_iff_write_issued (world : World) (id : Z) (name : bytes)
    (fmter : Formatter) (w : W) :
  exists b s, reformat world id name fmter w = Done (b, s) /\
              (b = true <-> existsb isWrite (events s) = true).
Proof.
  pose (I := @modifiedIffWritten W).
  assert (Hend : forall s0 : Session W, I s0 -> modified s0 = false ->
            exists s, ret false s0 = Done (false, s) /\
                      (false = true <-> existsb isWrite (events s) = true)).
  { intros s0 Hs0 Hm. exists s0. split; [reflexivity|].
    unfold I, modifiedIffWritten in Hs0. rewrite <- Hs0, Hm. tauto. }
  assert (Hlog : forall m (s0 : Session W), I s0 -> modified s0 = false ->
            exists s, (log m ;; ret false) s0 = Done (false, s) /\
                      (false = true <-> existsb isWrite (events s) = true)).
  { intros m s0 Hs0 Hm. eexists. split; [reflexivity|].
    unfold emit. simpl. rewrite existsb_snoc, orb_false_r.
    unfold I, modifiedIffWritten in Hs0. rewrite <- Hs0, Hm. tauto. }
  assert (H0 : I (open w)) by reflexivity.
  unfold reformat, reformatM.
  destruct (acme_Open_err world id).
  { exists false. apply Hlog; [exact H0 | reflexivity]. }
  destruct (ioutil_ReadFile world name) as [old|];
    [|exists false; apply Hend; [exact H0 | reflexivity]].
  destruct (format fmter name) as [new [|]];
    [exists false; apply Hend; [exact H0 | reflexivity]|].
  destruct (bytes_eqb old new);
    [exists false; apply Hend; [exact H0 | reflexivity]|].
  destruct (ioutil_TempFile_err world).
  { exists false. apply Hlog; [exact H0 | reflexivity]. }
  destruct (tmp_Write_err world).
  { exists false. apply Hlog; [exact H0 | reflexivity]. }
  destruct (written_ReadAll (B "body") (open w) H0) as (r & s1 & E1 & Hs1).
  assert (Hm1 : modified s1 = false).
  { unfold ReadAll in E1. destruct (Win_ReadAll (B "body") (win (open w))).
    injection E1 as _ <-. reflexivity. }
  unfold bind at 1. rewrite E1.
  destruct r as [latest|]; [|exists false; apply Hlog; assumption].
  destruct (negb (bytes_eqb old latest)); [exists false; apply Hlog; assumption|].
  destruct (written_Write (B "ctl") (B "mark") s1 Hs1) as ([] & s2 & E2 & Hs2).
  unfold bind at 1. rewrite E2.
  destruct (written_Write (B "ctl") (B "nomark") s2 Hs2) as ([] & s3 & E3 & Hs3).
  unfold bind at 1. rewrite E3.
  destruct (keeps_replayLines _ written_log written_Addr written_Write
              new (rev (Split (usr_bin_diff world old new) NL)) s3 Hs3)
    as ([] & s4 & E4 & Hs4).
  unfold bind, replay. rewrite E4.
  exists (modified s4), s4. split; [reflexivity|].
  unfold modifiedIffWritten in Hs4. rewrite Hs4. tauto.
Qed.

(** C2.  When the body read from the window differs from the content
    of the file, [reformat] returns false and issues no write to the
    window, control or data, whatever the diff engine printed. *)
Theorem guard_blocks_writes (world : World) (id : Z) (name : bytes)
    (fmter : Formatter) (w w' : W) (old latest : bytes) :
  ioutil_ReadFile world name = Some old ->
  Win_ReadAll (B "body") w = (Some latest, w') ->
  latest <> old ->
  exists s, reformat world id name fmter w = Done (false, s) /\
            noWrites (events s) /\
            forallb (fun e => negb (isAddr e)) (events s) = true /\
            modified s = false.
Proof.
  intros Hold Hread Hneq.
  unfold reformat, reformatM. rewrite Hold.
  destruct (acme_Open_err world id); [eexists; split; [reflexivity | repeat split]|].
  destruct (format fmter name) as [new [|]];
    [eexists; split; [reflexivity | repeat split]|].
  destruct (bytes_eqb old new); [eexists; split; [reflexivity | repeat split]|].
  destruct (ioutil_TempFile_err world);
    [eexists; split; [reflexivity | repeat split]|].
  destruct (tmp_Write_err world);
    [eexists; split; [reflexivity | repeat split]|].
  unfold bind at 1. unfold ReadAll. simpl (win (open w)). rewrite Hread.
  rewrite (bytes_eqb_neq old latest) by congruence. simpl negb. cbv iota.
  eexists; split; [reflexivity | repeat split].
Qed.

(** C7.  When the formatter prints what the file holds, [reformat]
    returns false at once: nothing is read from the window, no
    address is set, no write is issued and the window is left as it
    was; the run does not depend on the diff engine. *)
Theorem same_output_no_writes (world : World) (id : Z) (name : bytes)
    (fmter : Formatter) (w : W) (old : bytes) (err : bool) :
  ioutil_ReadFile world name = Some old ->
  format fmter name = (old, err) ->
  exists s, reformat world id name fmter w = Done (false, s) /\
            win s = w /\ modified s = false /\
            noWrites (events s) /\ forallb isLog (events s) = true /\
            forall diff, reformat (withDiff world diff) id name fmter w
                         = Done (false, s).
Proof.
  intros Hold Hfmt.
  unfold reformat, reformatM. simpl. rewrite Hold, Hfmt.
  destruct (acme_Open_err world id);
    [eexists; split; [reflexivity | repeat split]|].
  destruct err; [eexists; split; [reflexivity | repeat split]|].
  rewrite bytes_eqb_refl. eexists; split; [reflexivity | repeat split].
Qed.
End ReformatFacts.

(** ** Failures during the replay *)

Lemma isOp_cases (op : byte) :
  isOp op = true -> op = "a"%char \/ op = "c"%char \/ op = "d"%char.
Proof.
  unfold isOp. rewrite !orb_true_iff, !byte_eqb_eq. tauto.
Qed.

Section FailureFacts.
Context {W : Type} `{Backend W}.
Local Open Scope go_scope.

(** C3, as the code has it.  When setting the address of an Add, a
    Change or a Delete fails, the failure is logged and no data write
    is issued for that operation; the [break] leaves the switch only,
    and the loop goes on with the lines that remain. *)
Theorem addr_failure_skips_one_op (new before after : bytes) (op : byte)
    (rest : list bytes) (s s1 s2 : Session W)
    (oldStart oldEnd newStart newEnd : Z) (w' : W) :
  isHeaderCandidate (before ++ op :: after) = true ->
  Forall (fun c => isOp c = false) before -> isOp op = true ->
  parseSpan before s = Done ((oldStart, oldEnd), s1) ->
  parseSpan after s1 = Done ((newStart, newEnd), s2) ->
  oldStart <> 0 -> newStart <> 0 ->
  Win_Addr (fst (opAddr op oldStart oldEnd)) (snd (opAddr op oldStart oldEnd)) (win s2)
  = (true, w') ->
  let s3 := {| win := w'; modified := modified s2;
               events := events s2 ++
                 [EvAddr (fst (opAddr op oldStart oldEnd))
                         (snd (opAddr op oldStart oldEnd)) true] ++
                 [EvLog LogErr] |} in
  replayLine new (before ++ op :: after) s = Done (Next, s3) /\
  replayLines new ((before ++ op :: after) :: rest) s = replayLines new rest s3.
Proof.
  intros Hcand Hb Hop E1 E2 Ho Hn Haddr s3.
  assert (Hline : replayLine new (before ++ op :: after) s = Done (Next, s3)).
  { rewrite (replayLine_header new before after op s Hcand Hb Hop).
    unfold bind at 1. rewrite E1. unfold bind at 1. rewrite E2.
    replace ((oldStart =? 0) || (newStart =? 0)) with false
      by (symmetry; rewrite orb_false_iff, !Z.eqb_neq; tauto).
    subst s3. unfold applyOp, bind, Addr, log, emit, ret.
    destruct (isOp_cases op Hop) as [-> | [-> | ->]];
      simpl in Haddr |- *; rewrite Haddr; simpl;
      rewrite <- app_assoc; reflexivity. }
  split; [exact Hline|].
  simpl replayLines. unfold bind at 1. rewrite Hline. reflexivity.
Qed.

(** C4, as the code has it.  On a line that is looked at as a hunk
    header and has none of the letters [a], [c], [d], the loop logs
    that the line does not parse and stops: none of the lines that
    remain is visited. *)
Theorem bad_line_stops_replay (new line : bytes) (rest : list bytes)
    (s : Session W) :
  isHeaderCandidate line = true ->
  Forall (fun c => isOp c = false) line ->
  replayLine new line s = Done (Break, emit (EvLog (LogBadLine line)) s) /\
  replayLines new (line :: rest) s = Done (tt, emit (EvLog (LogBadLine line)) s).
Proof.
  intros Hcand Hno.
  assert (Hline : replayLine new line s
                  = Done (Break, emit (EvLog (LogBadLine line)) s)).
  { unfold replayLine, isHeaderCandidate in *.
    destruct line as [|c0 rest0] eqn:El; [discriminate|]. rewrite <- El in *.
    apply andb_true_iff in Hcand as [Hm Hc0].
    apply negb_true_iff in Hm. apply negb_true_iff in Hc0.
    replace (bytes_eqb line []) with false by (rewrite El; reflexivity).
    rewrite Hm. unfold bind, lift.
    replace (idx line 0) with (Done c0) by (rewrite El; reflexivity).
    rewrite Hc0, scanOp_opIndex, (opIndex_none line Hno), Z.leb_refl.
    reflexivity. }
  split; [exact Hline|].
  simpl replayLines. unfold bind at 1. rewrite Hline. reflexivity.
Qed.

(** C5.  A bare integer [N] parses to [(N, N)]; [N,M] parses to
    [(N, M)]; a text whose conversion to an integer fails parses to
    [(0, 0)]; and a hunk whose old start or new start is 0 is
    skipped: no address is set, no write is issued, and the loop goes
    on with the lines that remain. *)
Theorem parseSpan_ranges :
  (forall (n : Z) (s : Session W),
      in_int n -> parseSpan (itoa n) s = Done ((n, n), s))
  /\ (forall (n m : Z) (s : Session W),
        in_int n -> in_int m ->
        parseSpan (itoa n ++ B "," ++ itoa m) s = Done ((n, m), s))
  /\ (forall (text : bytes) (s : Session W),
        Index text ","%char < 0 -> Atoi text = None ->
        parseSpan text s = Done ((0, 0), emit (EvLog (LogBadSpan text)) s))
  /\ (forall (lo hi : bytes) (s : Session W),
        Index lo ","%char < 0 -> Atoi lo = None \/ Atoi hi = None ->
        parseSpan (lo ++ B "," ++ hi) s
        = Done ((0, 0), emit (EvLog (LogBadSpan (lo ++ B "," ++ hi))) s))
  /\ (forall (new before after : bytes) (op : byte) (rest : list bytes)
             (s s1 s2 : Session W) (oldStart oldEnd newStart newEnd : Z),
        isHeaderCandidate (before ++ op :: after) = true ->
        Forall (fun c => isOp c = false) before -> isOp op = true ->
        parseSpan before s = Done ((oldStart, oldEnd), s1) ->
        parseSpan after s1 = Done ((newStart, newEnd), s2) ->
        oldStart = 0 \/ newStart = 0 ->
        replayLine new (before ++ op :: after) s = Done (Next, s2) /\
        win s2 = win s /\ modified s2 = modified s /\
        (exists logs, events s2 = events s ++ logs /\ forallb isLog logs = true) /\
        replayLines new ((before ++ op :: after) :: rest) s
        = replayLines new rest s2).
Proof.
  assert (Hnocomma : forall n, Forall (fun c => byte_eqb c ","%char = false) (itoa n))
    by (intros n; apply (numchars_no ","%char); [reflexivity | apply itoa_numchars]).
  assert (Habsent : forall lo, Index lo ","%char < 0 ->
                      Forall (fun c => byte_eqb c ","%char = false) lo).
  { induction lo as [|c t IH]; intros Hi; [constructor|].
    simpl in Hi. destruct (byte_eqb c ","%char) eqn:E; [lia|].
    constructor; [exact E|]. apply IH.
    destruct (Z.ltb_spec (Index t ","%char) 0); lia. }
  split; [|split; [|split; [|split]]].
  - intros n s Hn. rewrite parseSpan_bare.
    + rewrite Atoi_itoa by assumption. reflexivity.
    + rewrite Index_absent by apply Hnocomma. lia.
  - intros n m s Hn Hm. simpl app. rewrite parseSpan_comma by apply Hnocomma.
    rewrite !Atoi_itoa by assumption. reflexivity.
  - intros text s Hi Ha. rewrite parseSpan_bare by assumption.
    rewrite Ha. reflexivity.
  - intros lo hi s Hi Ha. simpl app.
    rewrite parseSpan_comma by (apply Habsent; assumption).
    destruct Ha as [-> | Ha]; [reflexivity|].
    rewrite Ha. destruct (Atoi lo); reflexivity.
  - intros new before after op rest s s1 s2 oldStart oldEnd newStart newEnd
           Hcand Hb Hop E1 E2 Hz.
    assert (Hline : replayLine new (before ++ op :: after) s = Done (Next, s2)).
    { rewrite (replayLine_header new before after op s Hcand Hb Hop).
      unfold bind at 1. rewrite E1. unfold bind at 1. rewrite E2.
      replace ((oldStart =? 0) || (newStart =? 0)) with true; [reflexivity|].
      symmetry. rewrite orb_true_iff, !Z.eqb_eq. exact Hz. }
    assert (Hq : forall text (a b : Session W) r,
               parseSpan text a = Done (r, b) ->
               win b = win a /\ modified b = modified a /\
               exists logs, events b = events a ++ logs /\ forallb isLog logs = true).
    { intros text a b r E.
      destruct (parseSpan_quiet text a) as (r' & b' & E' & Hb').
      rewrite E in E'. injection E' as <- <-.
      destruct Hb' as [-> | ->].
      - repeat split. exists []. rewrite app_nil_r. split; reflexivity.
      - repeat split. eexists. split; reflexivity. }
    destruct (Hq _ _ _ _ E1) as (Hw1 & Hm1 & l1 & He1 & Hl1).
    destruct (Hq _ _ _ _ E2) as (Hw2 & Hm2 & l2 & He2 & Hl2).
    split; [exact Hline|]. split; [congruence|]. split; [congruence|]. split.
    + exists (l1 ++ l2). rewrite He2, He1, <- app_assoc.
      split; [reflexivity|]. rewrite forallb_app, Hl1, Hl2. reflexivity.
    + simpl replayLines. unfold bind at 1. rewrite Hline. reflexivity.
Qed.

Lemma scanRun_stop (guard : cursor -> bool) (step : cursor -> byte -> cursor)
    (rest : bytes) (c : cursor) :
  guard c = false -> scanRun guard step rest c = c.
Proof. intros G. destruct rest; simpl; [|rewrite G]; reflexivity. Qed.

(** C10.  The check for the sentinel catches 0 only.  For the header
    [3c-4], [parseSpan] returns the negative range, the hunk is not
    skipped and the address of lines 3,3 is set; [findLines] on the
    negative range is the empty slice, which is the payload written
    when the address is accepted. *)
Theorem negative_range_not_rejected (new : bytes) (s : Session W) :
  parseSpan (B "-4") s = Done ((-4, -4), s)
  /\ findLines new (-4) (-4) = Done []
  /\ replayLine new (B "3c-4") s
     = (err <- Addr (B "%d,%d") [3; 3] ;;
        (if err then log LogErr else Write (B "data") []) ;;
        ret Next) s
  /\ forall w', Win_Addr (B "%d,%d") [3; 3] (win s) = (false, w') ->
       replayLine new (B "3c-4") s
       = Done (Next,
               {| win := snd (Win_Write (B "data") [] w');
                  modified := true;
                  events := events s ++
                    [EvAddr (B "%d,%d") [3; 3] false] ++
                    [EvWrite (B "data") [] (fst (Win_Write (B "data") [] w'))] |}).
Proof.
  assert (Hfind : findLines new (-4) (-4) = Done []).
  { destruct (findBounds_scan new (-4) (-4)) as (E & _).
    cbv zeta in E. unfold findLines. rewrite E.
    rewrite !scanRun_stop by reflexivity. simpl.
    rewrite slice_ok by (pose proof (len_nonneg new); lia). reflexivity. }
  assert (Hline : replayLine new (B "3c-4") s
     = (err <- Addr (B "%d,%d") [3; 3] ;;
        (if err then log LogErr else Write (B "data") []) ;;
        ret Next) s).
  { rewrite (replayLine_header new (B "3") (B "-4") "c"%char s eq_refl);
      [|repeat constructor | reflexivity].
    unfold bind at 1. replace (parseSpan (B "3") s) with (Done ((3, 3), s)) by reflexivity.
    unfold bind at 1. replace (parseSpan (B "-4") s) with (Done ((-4, -4), s)) by reflexivity.
    change ((3 =? 0) || (-4 =? 0)) with false. cbv iota.
    change (applyOp new "c"%char 3 3 (-4) (-4))
      with (err <- Addr (B "%d,%d") [3; 3] ;;
            if err then log LogErr
            else data <- lift (findLines new (-4) (-4)) ;; Write (B "data") data).
    unfold bind, Addr. destruct (Win_Addr (B "%d,%d") [3; 3] (win s)) as [[|] w'].
    - reflexivity.
    - unfold lift. rewrite Hfind. reflexivity. }
  split; [reflexivity|]. split; [exact Hfind|]. split; [exact Hline|].
  intros w' Haddr. rewrite Hline. unfold bind, Addr, Write, ret. rewrite Haddr.
  simpl. destruct (Win_Write (B "data") [] w'). simpl.
  rewrite <- app_assoc. reflexivity.
Qed.
End FailureFacts.

(** ** Runs on concrete windows *)

Lemma in_int_small (z : Z) : -1000 <= z <= 1000 -> in_int z.
Proof. unfold in_int, minInt, maxInt. lia. Qed.

Lemma guard_blocks_writes_witness :
  ioutil_ReadFile (calm (unlines [B "a"; B "b"]) (B "2c2")) (B "f.go")
  = Some (unlines [B "a"; B "b"])
  /\ Win_ReadAll (B "body") (Acme.holding (unlines [B "a"; B "edited"]))
     = (Some (unlines [B "a"; B "edited"]), Acme.holding (unlines [B "a"; B "edited"]))
  /\ unlines [B "a"; B "edited"] <> unlines [B "a"; B "b"]
  /\ exists s,
       reformat (calm (unlines [B "a"; B "b"]) (B "2c2")) 1 (B "f.go")
                (printing (unlines [B "a"; B "c"]))
                (Acme.holding (unlines [B "a"; B "edited"]))
       = Done (false, s) /\
       noWrites (events s) /\
       forallb (fun e => negb (isAddr e)) (events s) = true /\
       modified s = false.
Proof.
  assert (H1 : ioutil_ReadFile (calm (unlines [B "a"; B "b"]) (B "2c2")) (B "f.go")
               = Some (unlines [B "a"; B "b"])) by reflexivity.
  assert (H2 : Win_ReadAll (B "body") (Acme.holding (unlines [B "a"; B "edited"]))
               = (Some (unlines [B "a"; B "edited"]),
                  Acme.holding (unlines [B "a"; B "edited"]))) by reflexivity.
  assert (H3 : unlines [B "a"; B "edited"] <> unlines [B "a"; B "b"])
    by (vm_compute; discriminate).
  split; [exact H1|]. split; [exact H2|]. split; [exact H3|].
  exact (guard_blocks_writes _ 1 (B "f.go") (printing (unlines [B "a"; B "c"]))
           _ _ _ _ H1 H2 H3).
Defined.

Lemma same_output_no_writes_witness :
  ioutil_ReadFile (calm (unlines [B "a"; B "b"]) []) (B "f.go")
  = Some (unlines [B "a"; B "b"])
  /\ format (printing (unlines [B "a"; B "b"])) (B "f.go")
     = (unlines [B "a"; B "b"], false)
  /\ exists s,
       reformat (calm (unlines [B "a"; B "b"]) []) 1 (B "f.go")
                (printing (unlines [B "a"; B "b"]))
                (Acme.holding (unlines [B "a"; B "b"]))
       = Done (false, s) /\
       win s = Acme.holding (unlines [B "a"; B "b"]) /\ modified s = false /\
       noWrites (events s) /\ forallb isLog (events s) = true /\
       forall diff,
         reformat (withDiff (calm (unlines [B "a"; B "b"]) []) diff) 1 (B "f.go")
                  (printing (unlines [B "a"; B "b"]))
                  (Acme.holding (unlines [B "a"; B "b"]))
         = Done (false, s).
Proof.
  assert (H1 : ioutil_ReadFile (calm (unlines [B "a"; B "b"]) []) (B "f.go")
               = Some (unlines [B "a"; B "b"])) by reflexivity.
  assert (H2 : format (printing (unlines [B "a"; B "b"])) (B "f.go")
               = (unlines [B "a"; B "b"], false)) by reflexivity.
  split; [exact H1|]. split; [exact H2|].
  exact (same_output_no_writes _ 1 (B "f.go") _
           (Acme.holding (unlines [B "a"; B "b"])) _ _ H1 H2).
Defined.

(** C8 fails as stated: on a window that refuses every write,
    [reformat] returns true although no write succeeded. *)
Lemma reformat_true_without_successful_write :
  exists s,
    reformat (calm (unlines [B "a"]) (unlines [B "1a2"; B "> b"])) 1 (B "f.go")
             (printing (unlines [B "a"; B "b"]))
             (Gone.Win (unlines [B "a"]))
    = Done (true, s) /\
    existsb isWriteOk (events s) = false.
Proof. eexists. split; vm_compute; reflexivity. Qed.

(** C3 fails as stated: after the address [5,5] is refused, the loop
    sets the address [2,2] and writes to it. *)
Lemma addr_failure_does_not_abort :
  exists s,
    reformat (calm (unlines [B "a"; B "b"; B "c"])
                   (unlines [B "2d1"; B "< b"; B "5d4"; B "< e"]))
             1 (B "f.go") (printing (unlines [B "a"; B "c"]))
             (Acme.holding (unlines [B "a"; B "b"; B "c"]))
    = Done (true, s) /\
    Acme.body (win s) = unlines [B "a"; B "c"] /\
    ~ abortsOnAddrFailure (events s).
Proof.
  eexists. split; [vm_compute; reflexivity|]. split; [reflexivity|].
  intros Habort.
  specialize (Habort
    [EvReadAll (B "body") false; EvWrite (B "ctl") (B "mark") false;
     EvWrite (B "ctl") (B "nomark") false]
    [EvLog LogErr; EvAddr (B "%d,%d") [2; 2] false; EvWrite (B "data") [] false]
    (B "%d,%d") [5; 5] eq_refl).
  discriminate Habort.
Qed.

Lemma addr_failure_skips_one_op_witness :
  let s := open (Acme.holding (unlines [B "a"; B "b"; B "c"])) in
  let s3 := {| win := Acme.holding (unlines [B "a"; B "b"; B "c"]);
               modified := false;
               events := [EvAddr (B "%d,%d") [5; 5] true; EvLog LogErr] |} in
  isHeaderCandidate (B "5" ++ "d"%char :: B "4") = true /\
  Forall (fun c => isOp c = false) (B "5") /\ isOp "d"%char = true /\
  parseSpan (B "5") s = Done ((5, 5), s) /\
  parseSpan (B "4") s = Done ((4, 4), s) /\
  5 <> 0 /\ 4 <> 0 /\
  Win_Addr (fst (opAddr "d"%char 5 5)) (snd (opAddr "d"%char 5 5)) (win s)
  = (true, Acme.holding (unlines [B "a"; B "b"; B "c"])) /\
  replayLine (unlines [B "a"; B "c"]) (B "5d4") s = Done (Next, s3) /\
  replayLines (unlines [B "a"; B "c"]) [B "5d4"; B "< b"; B "2d1"] s
  = replayLines (unlines [B "a"; B "c"]) [B "< b"; B "2d1"] s3.
Proof.
  intros s s3.
  assert (H1 : isHeaderCandidate (B "5" ++ "d"%char :: B "4") = true) by reflexivity.
  assert (H2 : Forall (fun c => isOp c = false) (B "5"))
    by (repeat constructor).
  assert (H3 : isOp "d"%char = true) by reflexivity.
  assert (H4 : parseSpan (B "5") s = Done ((5, 5), s)) by reflexivity.
  assert (H5 : parseSpan (B "4") s = Done ((4, 4), s)) by reflexivity.
  assert (H6 : 5 <> 0) by lia.
  assert (H7 : 4 <> 0) by lia.
  assert (H8 : Win_Addr (fst (opAddr "d"%char 5 5)) (snd (opAddr "d"%char 5 5)) (win s)
               = (true, Acme.holding (unlines [B "a"; B "b"; B "c"])))
    by reflexivity.
  repeat (split; [assumption|]).
  exact (addr_failure_skips_one_op (unlines [B "a"; B "c"]) (B "5") (B "4") "d"%char
           [B "< b"; B "2d1"] s s s 5 5 4 4
           (Acme.holding (unlines [B "a"; B "b"; B "c"]))
           H1 H2 H3 H4 H5 H6 H7 H8).
Defined.

(** C4 fails as stated: the line that does not parse is not the only
    one skipped; the hunk [2d1] that remains is never visited. *)
Lemma bad_line_drops_the_rest :
  let s := open (Acme.holding (unlines [B "a"; B "b"; B "c"])) in
  isHeaderCandidate (B "xyz") = true /\
  forallb (fun c => negb (isOp c)) (B "xyz") = true /\
  replayLines (unlines [B "a"; B "c"]) [B "xyz"; B "< b"; B "2d1"] s
  <> replayLines (unlines [B "a"; B "c"]) [B "< b"; B "2d1"]
       (emit (EvLog (LogBadLine (B "xyz"))) s).
Proof.
  intros s. split; [reflexivity|]. split; [reflexivity|].
  intros E. vm_compute in E. discriminate E.
Qed.

Lemma bad_line_stops_replay_witness :
  let s := open (Acme.holding (unlines [B "a"; B "b"; B "c"])) in
  isHeaderCandidate (B "xyz") = true /\
  Forall (fun c => isOp c = false) (B "xyz") /\
  replayLine (unlines [B "a"; B "c"]) (B "xyz") s
  = Done (Break, emit (EvLog (LogBadLine (B "xyz"))) s) /\
  replayLines (unlines [B "a"; B "c"]) [B "xyz"; B "< b"; B "2d1"] s
  = Done (tt, emit (EvLog (LogBadLine (B "xyz"))) s).
Proof.
  intros s.
  assert (H1 : isHeaderCandidate (B "xyz") = true) by reflexivity.
  assert (H2 : Forall (fun c => isOp c = false) (B "xyz")) by (repeat constructor).
  split; [exact H1|]. split; [exact H2|].
  exact (bad_line_stops_replay (unlines [B "a"; B "c"]) (B "xyz")
           [B "< b"; B "2d1"] s H1 H2).
Defined.

Lemma parseSpan_ranges_witness :
  let s := open (Acme.holding (unlines [B "a"; B "b"])) in
  (in_int 12 /\ parseSpan (itoa 12) s = Done ((12, 12), s))
  /\ (in_int 12 /\ in_int 14 /\
      parseSpan (itoa 12 ++ B "," ++ itoa 14) s = Done ((12, 14), s))
  /\ (Index (B "1x") ","%char < 0 /\ Atoi (B "1x") = None /\
      parseSpan (B "1x") s = Done ((0, 0), emit (EvLog (LogBadSpan (B "1x"))) s))
  /\ (Index (B "1") ","%char < 0 /\ (Atoi (B "1") = None \/ Atoi (B "") = None) /\
      parseSpan (B "1" ++ B "," ++ B "") s
      = Done ((0, 0), emit (EvLog (LogBadSpan (B "1" ++ B "," ++ B ""))) s))
  /\ (isHeaderCandidate (B "0" ++ "a"%char :: B "1") = true /\
      Forall (fun c => isOp c = false) (B "0") /\ isOp "a"%char = true /\
      parseSpan (B "0") s = Done ((0, 0), s) /\
      parseSpan (B "1") s = Done ((1, 1), s) /\
      (0 = 0 \/ 1 = 0) /\
      replayLine (unlines [B "x"; B "a"; B "b"]) (B "0" ++ "a"%char :: B "1") s
      = Done (Next, s) /\
      replayLines (unlines [B "x"; B "a"; B "b"])
                  ((B "0" ++ "a"%char :: B "1") :: [B "2c3"]) s
      = replayLines (unlines [B "x"; B "a"; B "b"]) [B "2c3"] s).
Proof.
  intros s.
  assert (I12 : in_int 12) by (apply in_int_small; lia).
  assert (I14 : in_int 14) by (apply in_int_small; lia).
  assert (A1 : Index (B "1x") ","%char < 0) by (vm_compute; reflexivity).
  assert (A2 : Atoi (B "1x") = None) by reflexivity.
  assert (B1 : Index (B "1") ","%char < 0) by (vm_compute; reflexivity).
  assert (B2 : Atoi (B "1") = None \/ Atoi (B "") = None) by (right; reflexivity).
  assert (C1 : isHeaderCandidate (B "0" ++ "a"%char :: B "1") = true) by reflexivity.
  assert (C2 : Forall (fun c => isOp c = false) (B "0")) by (repeat constructor).
  assert (C3 : isOp "a"%char = true) by reflexivity.
  assert (C4 : parseSpan (B "0") s = Done ((0, 0), s)) by reflexivity.
  assert (C5 : parseSpan (B "1") s = Done ((1, 1), s)) by reflexivity.
  assert (C6 : 0 = 0 \/ 1 = 0) by (left; reflexivity).
  destruct (@parseSpan_ranges Acme.win _) as (P1 & P2 & P3 & P4 & P5).
  split; [split; [exact I12 | exact (P1 12 s I12)]|].
  split; [split; [exact I12 | split; [exact I14 | exact (P2 12 14 s I12 I14)]]|].
  split; [split; [exact A1 | split; [exact A2 | exact (P3 (B "1x") s A1 A2)]]|].
  split; [split; [exact B1 | split; [exact B2 | exact (P4 (B "1") (B "") s B1 B2)]]|].
  destruct (P5 (unlines [B "x"; B "a"; B "b"]) (B "0") (B "1") "a"%char [B "2c3"]
               s s s 0 0 1 1 C1 C2 C3 C4 C5 C6) as (Q1 & _ & _ & _ & Q2).
  repeat (split; [assumption|]). exact Q2.
Defined.

Lemma negative_range_not_rejected_witness :
  let s := open (Acme.holding (unlines [B "a"; B "b"; B "c"])) in
  Win_Addr (B "%d,%d") [3; 3] (win s)
  = (false, Acme.Win (unlines [B "a"; B "b"; B "c"]) 4 6)
  /\ replayLine (unlines [B "a"; B "x"]) (B "3c-4") s
     = Done (Next,
             {| win := Acme.Win (unlines [B "a"; B "b"]) 4 4;
                modified := true;
                events := [EvAddr (B "%d,%d") [3; 3] false;
                           EvWrite (B "data") [] false] |}).
Proof.
  intros s.
  assert (H1 : Win_Addr (B "%d,%d") [3; 3] (win s)
               = (false, Acme.Win (unlines [B "a"; B "b"; B "c"]) 4 6))
    by reflexivity.
  split; [exact H1|].
  exact (proj2 (proj2 (proj2
           (negative_range_not_rejected (unlines [B "a"; B "x"]) s))) _ H1).
Defined.

(** ** Texts made of whole lines *)

Lemma unlines_app (a b : list bytes) : unlines (a ++ b) = unlines a ++ unlines b.
Proof. unfold unlines. rewrite map_app, concat_app. reflexivity. Qed.

Lemma unlines_cons (l : bytes) (ls : list bytes) :
  unlines (l :: ls) = l ++ NL :: unlines ls.
Proof. unfold unlines, ln. simpl. rewrite <- app_assoc. reflexivity. Qed.

Lemma nlfree_cons (c : byte) (l : bytes) :
  nlfree (c :: l) -> byte_eqb c NL = false /\ nlfree l.
Proof.
  intros Hl. inversion Hl as [|? ? Hc Hl']; subst. split; [|assumption].
  destruct (byte_eqb c NL) eqn:E; [|reflexivity].
  apply byte_eqb_eq in E. contradiction.
Qed.

Lemma slice_middle (a b c : bytes) :
  slice (a ++ b ++ c) (len a) (len a + len b) = Done b.
Proof.
  pose proof (len_nonneg a). pose proof (len_nonneg b). pose proof (len_nonneg c).
  rewrite slice_ok by (rewrite ?len_app; lia).
  replace (len a + len b - len a) with (len b) by lia.
  unfold len. rewrite !Nat2Z.id.
  rewrite skipn_app, skipn_all, Nat.sub_diag. simpl.
  rewrite firstn_app, firstn_all, Nat.sub_diag. simpl.
  rewrite app_nil_r. reflexivity.
Qed.

Lemma scanRun_cons (guard : cursor -> bool) (step : cursor -> byte -> cursor)
    (ch : byte) (t : bytes) (c : cursor) :
  scanRun guard step (ch :: t) c
  = if guard c then scanRun guard step t (step c ch) else c.
Proof. reflexivity. Qed.

(** The first loop of [findLines] crosses a whole line at a time. *)
Lemma skip_line (l : bytes) :
  nlfree l ->
  forall rest i start e, 0 < start ->
    scanRun skipGuard skipStep (l ++ NL :: rest) (Cursor i start e)
    = scanRun skipGuard skipStep rest
        (Cursor (i + len l + 1) (wrap (start - 1)) (wrap (e - 1))).
Proof.
  induction l as [|c l IH]; intros Hl rest i start e Hs.
  - cbn [app]. rewrite scanRun_cons.
    replace (skipGuard (Cursor i start e)) with true
      by (symmetry; apply Z.ltb_lt; exact Hs).
    replace (skipStep (Cursor i start e) NL)
      with (Cursor (i + 1) (wrap (start - 1)) (wrap (e - 1))) by reflexivity.
    rewrite len_nil, Z.add_0_r. reflexivity.
  - destruct (nlfree_cons _ _ Hl) as [Hc Hl'].
    cbn [app]. rewrite scanRun_cons.
    replace (skipGuard (Cursor i start e)) with true
      by (symmetry; apply Z.ltb_lt; exact Hs).
    replace (skipStep (Cursor i start e) c) with (Cursor (i + 1) start e)
      by (unfold skipStep; rewrite Hc; reflexivity).
    rewrite IH by assumption. rewrite len_cons. do 2 f_equal. lia.
Qed.







(** ** Addresses of the window on a text of whole lines *)








(** ** The lines of a rendered script *)






Section RangeFacts.
Context {W : Type} `{Backend W}.


(** A content line of a hunk is passed over. *)
Lemma replayLine_content (new line : bytes) (s : Session W) :
  Diff.isContentLine line = true -> replayLine new line s = Done (Next, s).
Proof.
  intros Hc. destruct line as [|c0 t]; [discriminate|].
  cbn [Diff.isContentLine] in Hc.
  unfold replayLine.
  change (bytes_eqb (c0 :: t) []) with false. cbv iota.
  assert (Hm : bytes_eqb (c0 :: t) noNewline = false).
  { unfold noNewline, B. cbn [list_ascii_of_string bytes_eqb].
    rewrite !orb_true_iff, !byte_eqb_eq in Hc.
    destruct Hc as [[-> | ->] | ->]; reflexivity. }
  rewrite Hm. unfold bind, lift.
  replace (idx (c0 :: t) 0) with (Done c0) by reflexivity.
  rewrite Hc. reflexivity.
Qed.





Lemma replayLines_next (new line : bytes) (rest : list bytes) (s s' : Session W) :
  replayLine new line s = Done (Next, s') ->
  replayLines new (line :: rest) s = replayLines new rest s'.
Proof. intros E. cbn [replayLines]. unfold bind at 1. rewrite E. reflexivity. Qed.
End RangeFacts.






(** ** Replaying a script into the window *)














(** * More of the program *)

(** ** The span extractor, by line offsets *)

Lemma lineOffset_zero (text : bytes) : lineOffset text 0 = 0.
Proof. destruct text; reflexivity. Qed.

Lemma lineOffset_nil (k : nat) : lineOffset [] k = 0.
Proof. destruct k; reflexivity. Qed.

Lemma lineOffset_cons (c : byte) (t : bytes) (k : nat) :
  lineOffset (c :: t) (S k) = 1 + lineOffset t (if byte_eqb c NL then k else S k).
Proof. reflexivity. Qed.

Lemma lineOffset_range (text : bytes) :
  forall k, 0 <= lineOffset text k <= len text.
Proof.
  induction text as [|c t IH]; intros k.
  - rewrite lineOffset_nil, len_nil. lia.
  - destruct k as [|k]; rewrite len_cons.
    + rewrite lineOffset_zero. pose proof (len_nonneg t). lia.
    + rewrite lineOffset_cons.
      specialize (IH (if byte_eqb c NL then k else S k)). lia.
Qed.

(** Either [text] has [k] newlines, and [lineOffset] stops after the
    [k]-th, or it has fewer and [lineOffset] is its length. *)
Lemma lineOffset_cases (text : bytes) :
  forall k,
    countNL (firstn (Z.to_nat (lineOffset text k)) text) = k \/
    (lineOffset text k = len text /\
     (countNL (firstn (Z.to_nat (lineOffset text k)) text) < k)%nat).
Proof.
  induction text as [|c t IH]; intros k.
  - rewrite lineOffset_nil. destruct k; [left; reflexivity|].
    right. split; [reflexivity | simpl; lia].
  - destruct k as [|k].
    + rewrite lineOffset_zero. left. reflexivity.
    + rewrite lineOffset_cons, len_cons.
      pose proof (lineOffset_range t (if byte_eqb c NL then k else S k)) as Hr.
      replace (Z.to_nat (1 + lineOffset t (if byte_eqb c NL then k else S k)))
        with (S (Z.to_nat (lineOffset t (if byte_eqb c NL then k else S k)))) by lia.
      cbn [firstn countNL].
      destruct (byte_eqb c NL).
      * destruct (IH k) as [E | [E1 E2]]; [left; lia | right; split; lia].
      * destruct (IH (S k)) as [E | [E1 E2]]; [left; lia | right; split; lia].
Qed.

Lemma lineOffset_add (text : bytes) :
  forall j m,
    lineOffset text (j + m)
    = lineOffset text j
      + lineOffset (skipn (Z.to_nat (lineOffset text j)) text)
          (j + m - countNL (firstn (Z.to_nat (lineOffset text j)) text)).
Proof.
  induction text as [|c t IH]; intros j m.
  - rewrite !lineOffset_nil, ?skipn_nil, ?lineOffset_nil. reflexivity.
  - destruct j as [|j].
    + rewrite lineOffset_zero. simpl. rewrite Nat.sub_0_r. reflexivity.
    + cbn [Nat.add]. rewrite !lineOffset_cons.
      pose proof (lineOffset_range t (if byte_eqb c NL then j else S j)) as Hr.
      replace (Z.to_nat (1 + lineOffset t (if byte_eqb c NL then j else S j)))
        with (S (Z.to_nat (lineOffset t (if byte_eqb c NL then j else S j)))) by lia.
      cbn [skipn firstn countNL].
      destruct (byte_eqb c NL).
      * rewrite IH. cbn [Nat.sub]. lia.
      * replace (S (j + m)) with (S j + m)%nat by lia. rewrite IH. lia.
Qed.

Lemma lineOffset_mono (text : bytes) (j k : nat) :
  (j <= k)%nat -> lineOffset text j <= lineOffset text k.
Proof.
  intros Hjk. replace k with (j + (k - j))%nat by lia.
  rewrite lineOffset_add.
  pose proof (lineOffset_range
                (skipn (Z.to_nat (lineOffset text j)) text)
                (j + (k - j) - countNL (firstn (Z.to_nat (lineOffset text j)) text))).
  lia.
Qed.

(** Where the first loop of [findLines] stops, and what it leaves in
    [start] and [end], as long as [end--] does not wrap around. *)
Lemma skip_offset (rest : bytes) :
  forall i st e,
    st <= maxInt -> e <= maxInt -> (0 < st -> minInt + st <= e) ->
    scanRun skipGuard skipStep rest (Cursor i st e)
    = Cursor (i + lineOffset rest (Z.to_nat st))
        (st - Z.of_nat (countNL (firstn (Z.to_nat (lineOffset rest (Z.to_nat st))) rest)))
        (e - Z.of_nat (countNL (firstn (Z.to_nat (lineOffset rest (Z.to_nat st))) rest))).
Proof.
  induction rest as [|ch t IH]; intros i st e Hst He Hw.
  - rewrite lineOffset_nil. simpl. f_equal; lia.
  - rewrite scanRun_cons. unfold skipGuard at 1. cbn [cur_start].
    destruct (Z.ltb_spec 0 st) as [Hpos|Hneg].
    + replace (Z.to_nat st) with (S (Z.to_nat (st - 1))) by lia.
      rewrite lineOffset_cons.
      pose proof (lineOffset_range t
                    (if byte_eqb ch NL then Z.to_nat (st - 1) else S (Z.to_nat (st - 1))))
        as Hr.
      replace (Z.to_nat (1 + lineOffset t
                 (if byte_eqb ch NL then Z.to_nat (st - 1) else S (Z.to_nat (st - 1)))))
        with (S (Z.to_nat (lineOffset t
                 (if byte_eqb ch NL then Z.to_nat (st - 1) else S (Z.to_nat (st - 1))))))
        by lia.
      cbn [firstn countNL]. unfold skipStep. cbn [cur_i cur_start cur_end].
      specialize (Hw Hpos).
      destruct (byte_eqb ch NL).
      * rewrite !wrap_id by (unfold in_int, minInt, maxInt in *; lia).
        rewrite IH by (unfold minInt, maxInt in *; lia).
        f_equal; lia.
      * rewrite IH by (unfold minInt, maxInt in *; lia).
        replace (Z.to_nat st) with (S (Z.to_nat (st - 1))) by lia.
        f_equal; lia.
    + replace (Z.to_nat st) with O by lia. rewrite lineOffset_zero.
      simpl. f_equal; lia.
Qed.

Lemma take_offset (rest : bytes) :
  forall i st e,
    e <= maxInt ->
    cur_i (scanRun takeGuard takeStep rest (Cursor i st e))
    = i + lineOffset rest (Z.to_nat e).
Proof.
  induction rest as [|ch t IH]; intros i st e He.
  - rewrite lineOffset_nil. simpl. lia.
  - rewrite scanRun_cons. unfold takeGuard at 1. cbn [cur_end].
    destruct (Z.ltb_spec 0 e) as [Hpos|Hneg].
    + replace (Z.to_nat e) with (S (Z.to_nat (e - 1))) by lia.
      rewrite lineOffset_cons.
      unfold takeStep. cbn [cur_i cur_start cur_end].
      destruct (byte_eqb ch NL).
      * rewrite wrap_id by (unfold in_int, minInt, maxInt in *; lia).
        rewrite IH by lia. lia.
      * rewrite IH by lia.
        replace (Z.to_nat e) with (S (Z.to_nat (e - 1))) by lia. lia.
    + replace (Z.to_nat e) with O by lia. rewrite lineOffset_zero.
      cbn [cur_i]. lia.
Qed.

(** [startByte] and [endByte] are the offsets past the newlines number
    [start - 1] and [end]; [endByte] is never below [startByte]. *)
Lemma findBounds_offsets (text : bytes) (start end_ : Z) :
  minInt < start <= maxInt -> end_ <= maxInt ->
  (1 < start -> minInt + start - 1 <= end_) ->
  findBounds text start end_
  = Done (lineOffset text (Z.to_nat (start - 1)),
          Z.max (lineOffset text (Z.to_nat (start - 1)))
                (lineOffset text (Z.to_nat end_))).
Proof.
  intros Hs He Hw.
  destruct (findBounds_scan text start end_) as (E & H1 & H2).
  cbv zeta in E, H1, H2. rewrite E. clear E H1 H2.
  rewrite wrap_id by (unfold in_int, minInt, maxInt in *; lia).
  rewrite skip_offset by (unfold minInt, maxInt in *; lia).
  cbn [cur_i]. rewrite !Z.add_0_l.
  set (j := Z.to_nat (start - 1)).
  set (p := lineOffset text j).
  set (n := countNL (firstn (Z.to_nat p) text)).
  pose proof (lineOffset_range text j) as Hp. fold p in Hp.
  assert (Hn : (n <= j)%nat)
    by (destruct (lineOffset_cases text j) as [E | [_ E]]; fold p n in E; lia).
  rewrite take_offset by lia.
  f_equal. f_equal.
  destruct (lineOffset_cases text j) as [E | [E1 E2]]; fold p n in E || fold p n in E1, E2.
  - (* the text has [start - 1] newlines *)
    destruct (Z.le_gt_cases (start - 1) end_) as [Hle|Hgt].
    + replace (Z.to_nat end_) with (j + (Z.to_nat end_ - j))%nat by lia.
      rewrite lineOffset_add. fold p n.
      replace (Z.to_nat (end_ - Z.of_nat n))
        with (j + (Z.to_nat end_ - j) - n)%nat by lia.
      pose proof (lineOffset_range (skipn (Z.to_nat p) text)
                    (j + (Z.to_nat end_ - j) - n)).
      lia.
    + replace (Z.to_nat (end_ - Z.of_nat n)) with O by lia.
      rewrite lineOffset_zero.
      pose proof (lineOffset_mono text (Z.to_nat end_) j ltac:(lia)). fold p in H.
      lia.
  - (* the text has fewer: both loops stop at its end *)
    rewrite skipn_all2 by (unfold len in E1; lia).
    rewrite lineOffset_nil.
    pose proof (lineOffset_range text (Z.to_nat end_)). lia.
Qed.

Lemma firstn_plus {A : Type} (l : list A) :
  forall j m, firstn (j + m) l = firstn j l ++ firstn m (skipn j l).
Proof.
  induction l as [|x l IH]; intros j m.
  - rewrite !firstn_nil, skipn_nil, firstn_nil. reflexivity.
  - destruct j as [|j]; [reflexivity|].
    cbn [Nat.add firstn skipn app]. rewrite IH. reflexivity.
Qed.

Lemma slice_adjacent (text : bytes) (x y z : Z) :
  0 <= x <= y -> y <= z <= len text ->
  firstn (Z.to_nat (y - x)) (skipn (Z.to_nat x) text)
  ++ firstn (Z.to_nat (z - y)) (skipn (Z.to_nat y) text)
  = firstn (Z.to_nat (z - x)) (skipn (Z.to_nat x) text).
Proof.
  intros Hxy Hyz.
  replace (Z.to_nat (z - x)) with (Z.to_nat (y - x) + Z.to_nat (z - y))%nat by lia.
  rewrite firstn_plus, skipn_skipn.
  replace (Z.to_nat (y - x) + Z.to_nat x)%nat with (Z.to_nat y) by lia.
  reflexivity.
Qed.

(** X1.  For [start >= 1] and [end >= start - 1], [findLines] returns
    the bytes of the text from just past its newline number
    [start - 1] to just past its newline number [end], the end of the
    text standing for a newline that it does not have. *)
Theorem findLines_between_newlines (text : bytes) (start end_ : Z) :
  1 <= start <= maxInt -> start - 1 <= end_ -> end_ <= maxInt ->
  let lo := lineOffset text (Z.to_nat (start - 1)) in
  let hi := lineOffset text (Z.to_nat end_) in
  0 <= lo <= hi /\ hi <= len text /\
  findBounds text start end_ = Done (lo, hi) /\
  findLines text start end_
  = Done (firstn (Z.to_nat (hi - lo)) (skipn (Z.to_nat lo) text)).
Proof.
  intros Hs Hse He lo hi.
  pose proof (lineOffset_range text (Z.to_nat (start - 1))) as Hlo.
  pose proof (lineOffset_range text (Z.to_nat end_)) as Hhi.
  pose proof (lineOffset_mono text (Z.to_nat (start - 1)) (Z.to_nat end_) ltac:(lia))
    as Hmono.
  fold lo in Hlo, Hmono. fold hi in Hhi, Hmono.
  assert (E : findBounds text start end_ = Done (lo, hi)).
  { rewrite findBounds_offsets by (unfold minInt, maxInt in *; lia).
    fold lo hi. rewrite Z.max_r by lia. reflexivity. }
  split; [lia|]. split; [lia|]. split; [exact E|].
  unfold findLines. rewrite E. cbn [obind fst snd]. apply slice_ok; lia.
Qed.

Lemma findLines_between_newlines_witness :
  1 <= 2 <= maxInt /\ 2 - 1 <= 3 /\ 3 <= maxInt /\
  findLines (B "a" ++ [NL] ++ B "bc" ++ [NL] ++ B "d") 2 3 = Done (B "bc" ++ [NL] ++ B "d").
Proof.
  assert (H1 : 1 <= 2 <= maxInt) by (split; [lia | vm_compute; discriminate]).
  assert (H2 : 2 - 1 <= 3) by lia.
  assert (H3 : 3 <= maxInt) by (vm_compute; discriminate).
  repeat (split; [assumption|]).
  exact (proj2 (proj2 (proj2
    (findLines_between_newlines (B "a" ++ [NL] ++ B "bc" ++ [NL] ++ B "d") 2 3 H1 H2 H3)))).
Defined.

(** X2.  Adjacent ranges of lines concatenate: the lines [a..b]
    followed by the lines [b+1..c] are the lines [a..c]. *)
Theorem findLines_adjacent (text : bytes) (a b c : Z) :
  1 <= a -> a - 1 <= b -> b <= c -> c <= maxInt -> b < maxInt ->
  exists x y,
    findLines text a b = Done x /\
    findLines text (b + 1) c = Done y /\
    findLines text a c = Done (x ++ y).
Proof.
  intros Ha Hab Hbc Hc Hb.
  pose proof (lineOffset_range text (Z.to_nat (a - 1))) as H1.
  pose proof (lineOffset_range text (Z.to_nat b)) as H2.
  pose proof (lineOffset_range text (Z.to_nat c)) as H3.
  pose proof (lineOffset_mono text (Z.to_nat (a - 1)) (Z.to_nat b) ltac:(lia)) as M1.
  pose proof (lineOffset_mono text (Z.to_nat b) (Z.to_nat c) ltac:(lia)) as M2.
  assert (E : forall s e, 1 <= s <= maxInt -> s - 1 <= e -> e <= maxInt ->
            lineOffset text (Z.to_nat (s - 1)) <= lineOffset text (Z.to_nat e) ->
            findLines text s e
            = Done (firstn (Z.to_nat (lineOffset text (Z.to_nat e)
                                      - lineOffset text (Z.to_nat (s - 1))))
                      (skipn (Z.to_nat (lineOffset text (Z.to_nat (s - 1)))) text))).
  { intros s e Hs Hse He Hm. unfold findLines.
    rewrite findBounds_offsets by (unfold minInt, maxInt in *; lia).
    rewrite Z.max_r by lia. cbn [obind fst snd].
    pose proof (lineOffset_range text (Z.to_nat (s - 1))).
    pose proof (lineOffset_range text (Z.to_nat e)).
    apply slice_ok; lia. }
  eexists. eexists.
  split; [apply E; lia|].
  split; [apply E; try lia; replace (b + 1 - 1) with b by lia; exact M2|].
  rewrite E by lia.
  replace (b + 1 - 1) with b by lia.
  rewrite slice_adjacent by lia. reflexivity.
Qed.

Lemma findLines_adjacent_witness :
  1 <= 1 /\ 1 - 1 <= 1 /\ 1 <= 3 /\ 3 <= maxInt /\ 1 < maxInt /\
  exists x y,
    findLines (unlines [B "a"; B "b"; B "c"; B "d"]) 1 1 = Done x /\
    findLines (unlines [B "a"; B "b"; B "c"; B "d"]) (1 + 1) 3 = Done y /\
    findLines (unlines [B "a"; B "b"; B "c"; B "d"]) 1 3 = Done (x ++ y).
Proof.
  assert (H1 : 1 <= 1) by lia.
  assert (H2 : 1 - 1 <= 1) by lia.
  assert (H3 : 1 <= 3) by lia.
  assert (H4 : 3 <= maxInt) by (vm_compute; discriminate).
  assert (H5 : 1 < maxInt) by (vm_compute; reflexivity).
  repeat (split; [assumption|]).
  exact (findLines_adjacent (unlines [B "a"; B "b"; B "c"; B "d"]) 1 1 3 H1 H2 H3 H4 H5).
Defined.

(** X3.  With [end] before [start], [findLines] returns the empty
    slice, as long as [end] is not so close to the smallest integer
    that [end--] wraps around. *)
Theorem findLines_empty_range (text : bytes) (start end_ : Z) :
  in_int start -> in_int end_ -> minInt < start ->
  end_ < start -> minInt + start <= end_ ->
  findLines text start end_ = Done [].
Proof.
  intros Hs He Hmin Hlt Hw. unfold in_int in *.
  unfold findLines.
  rewrite findBounds_offsets by (unfold minInt, maxInt in *; lia).
  pose proof (lineOffset_range text (Z.to_nat (start - 1))) as H1.
  pose proof (lineOffset_mono text (Z.to_nat end_) (Z.to_nat (start - 1)) ltac:(lia)) as M.
  rewrite Z.max_l by lia. cbn [obind fst snd].
  rewrite slice_ok by lia. rewrite Z.sub_diag. reflexivity.
Qed.

Lemma findLines_empty_range_witness :
  in_int 3 /\ in_int 1 /\ minInt < 3 /\ 1 < 3 /\ minInt + 3 <= 1 /\
  findLines (unlines [B "a"; B "b"; B "c"]) 3 1 = Done [].
Proof.
  assert (H1 : in_int 3) by (apply in_int_small; lia).
  assert (H2 : in_int 1) by (apply in_int_small; lia).
  assert (H3 : minInt < 3) by (vm_compute; reflexivity).
  assert (H4 : 1 < 3) by lia.
  assert (H5 : minInt + 3 <= 1) by (vm_compute; discriminate).
  repeat (split; [assumption|]).
  exact (findLines_empty_range (unlines [B "a"; B "b"; B "c"]) 3 1 H1 H2 H3 H4 H5).
Defined.

Lemma lineOffset_line (l : bytes) :
  nlfree l ->
  forall rest k, lineOffset (l ++ NL :: rest) (S k) = len l + 1 + lineOffset rest k.
Proof.
  induction l as [|c l IH]; intros Hl rest k.
  - cbn [app]. rewrite lineOffset_cons, byte_eqb_refl, len_nil. lia.
  - destruct (nlfree_cons _ _ Hl) as [Hc Hl'].
    cbn [app]. rewrite lineOffset_cons, Hc, IH by assumption.
    rewrite len_cons. lia.
Qed.

Lemma lineOffset_unlines (ls : list bytes) :
  Forall nlfree ls ->
  forall k, lineOffset (unlines ls) k = len (unlines (firstn k ls)).
Proof.
  induction 1 as [|l ls Hl _ IH]; intros k.
  - rewrite firstn_nil. change (unlines []) with (@nil ascii).
    rewrite lineOffset_nil. reflexivity.
  - destruct k as [|k].
    + rewrite lineOffset_zero. reflexivity.
    + cbn [firstn]. rewrite !unlines_cons, lineOffset_line, IH by assumption.
      rewrite len_app, len_cons. lia.
Qed.

Lemma Forall_skipn_keep {A : Type} (P : A -> Prop) (l : list A) :
  Forall P l -> forall n, Forall P (skipn n l).
Proof.
  induction 1 as [|x l Hx Hl IH]; intros n.
  - rewrite skipn_nil. constructor.
  - destruct n as [|n]; [constructor; assumption | apply IH].
Qed.

Lemma skipn_unlines (ls : list bytes) (j : nat) :
  skipn (Z.to_nat (len (unlines (firstn j ls)))) (unlines ls) = unlines (skipn j ls).
Proof.
  rewrite <- (firstn_skipn j ls) at 2. rewrite unlines_app.
  unfold len. rewrite Nat2Z.id, skipn_app, skipn_all, Nat.sub_diag. reflexivity.
Qed.

(** X4.  On a text of whole lines, [findLines] returns the lines
    number [start] to [end], as many of them as the text has. *)
Theorem findLines_whole_lines (ls : list bytes) (start end_ : Z) :
  Forall nlfree ls ->
  1 <= start <= maxInt -> start - 1 <= end_ -> end_ <= maxInt ->
  findLines (unlines ls) start end_
  = Done (unlines (firstn (Z.to_nat (end_ - start + 1))
                          (skipn (Z.to_nat (start - 1)) ls))).
Proof.
  intros Hls Hs Hse He. unfold findLines.
  rewrite findBounds_offsets by (unfold minInt, maxInt in *; lia).
  pose proof (lineOffset_mono (unlines ls) (Z.to_nat (start - 1)) (Z.to_nat end_)
                ltac:(lia)) as Hmono.
  rewrite Z.max_r by exact Hmono. cbn [obind fst snd].
  rewrite !lineOffset_unlines by assumption.
  set (j := Z.to_nat (start - 1)).
  set (m := Z.to_nat (end_ - start + 1)).
  replace (Z.to_nat end_) with (j + m)%nat by lia.
  rewrite firstn_plus.
  rewrite <- (firstn_skipn j ls) at 1.
  rewrite <- (firstn_skipn m (skipn j ls)) at 1.
  rewrite !unlines_app, len_app.
  apply slice_middle.
Qed.

Lemma findLines_whole_lines_witness :
  Forall nlfree [B "a"; B "b"; B "c"; B "d"] /\
  1 <= 2 <= maxInt /\ 2 - 1 <= 9 /\ 9 <= maxInt /\
  findLines (unlines [B "a"; B "b"; B "c"; B "d"]) 2 9
  = Done (unlines [B "b"; B "c"; B "d"]).
Proof.
  assert (H1 : Forall nlfree [B "a"; B "b"; B "c"; B "d"])
    by (repeat constructor; discriminate).
  assert (H2 : 1 <= 2 <= maxInt) by (split; [lia | vm_compute; discriminate]).
  assert (H3 : 2 - 1 <= 9) by lia.
  assert (H4 : 9 <= maxInt) by (vm_compute; discriminate).
  repeat (split; [assumption|]).
  exact (findLines_whole_lines [B "a"; B "b"; B "c"; B "d"] 2 9 H1 H2 H3 H4).
Defined.

(** X5.  When [end] is the smallest integer and the text has a line
    before line [start], the first [end--] wraps around to the
    largest integer: [findLines] then returns every line from line
    [start] on, not the empty slice. *)
Theorem findLines_end_wraps (ls : list bytes) (start : Z) :
  Forall nlfree ls ->
  2 <= start -> start - 1 <= Z.of_nat (length ls) -> Z.of_nat (length ls) <= maxInt ->
  findLines (unlines ls) start minInt
  = Done (unlines (skipn (Z.to_nat (start - 1)) ls)).
Proof.
  intros Hls Hs Hlen Hmax.
  destruct ls as [|l0 ls']; [simpl in Hlen; lia|].
  inversion Hls as [|? ? Hl0 Hls']; subst.
  destruct (findBounds_scan (unlines (l0 :: ls')) start minInt) as (E & _).
  cbv zeta in E. unfold findLines. rewrite E. clear E.
  rewrite wrap_id by (unfold in_int, minInt, maxInt in *; lia).
  assert (Hc1 : scanRun skipGuard skipStep (unlines (l0 :: ls'))
                  (Cursor 0 (start - 1) minInt)
                = Cursor (len l0 + 1 + lineOffset (unlines ls') (Z.to_nat (start - 2)))
                    (start - 2 - Z.of_nat (countNL (firstn
                       (Z.to_nat (lineOffset (unlines ls') (Z.to_nat (start - 2))))
                       (unlines ls'))))
                    (maxInt - Z.of_nat (countNL (firstn
                       (Z.to_nat (lineOffset (unlines ls') (Z.to_nat (start - 2))))
                       (unlines ls'))))).
  { rewrite unlines_cons, skip_line by (assumption || lia).
    change (wrap (minInt - 1)) with maxInt.
    rewrite wrap_id by (unfold in_int, minInt, maxInt in *; lia).
    replace (start - 1 - 1) with (start - 2) by lia.
    rewrite skip_offset by (unfold minInt, maxInt in *; lia).
    f_equal; lia. }
  rewrite Hc1. cbn [cur_i]. clear Hc1.
  set (j := Z.to_nat (start - 2)).
  set (n := countNL (firstn (Z.to_nat (lineOffset (unlines ls') j)) (unlines ls'))).
  assert (Hn : (n <= j)%nat)
    by (destruct (lineOffset_cases (unlines ls') j) as [En | [_ En]]; fold n in En; lia).
  rewrite lineOffset_unlines by assumption.
  assert (Hsb : len l0 + 1 + len (unlines (firstn j ls'))
                = len (unlines (firstn (S j) (l0 :: ls')))).
  { cbn [firstn]. rewrite unlines_cons, len_app, len_cons. lia. }
  rewrite Hsb, take_offset by lia. cbn [obind fst snd].
  rewrite skipn_unlines, lineOffset_unlines
    by (apply Forall_skipn_keep; constructor; assumption).
  rewrite (firstn_all2 (n := Z.to_nat (maxInt - Z.of_nat n)))
    by (rewrite length_skipn; simpl length in *; lia).
  replace (Z.to_nat (start - 1)) with (S j) by lia.
  rewrite <- len_app, <- unlines_app, firstn_skipn.
  rewrite <- (firstn_skipn (S j) (l0 :: ls')) at 1 3.
  rewrite unlines_app. apply slice_app_right.
Qed.

Lemma findLines_end_wraps_witness :
  Forall nlfree [B "a"; B "b"; B "c"] /\
  2 <= 2 /\ 2 - 1 <= Z.of_nat (length [B "a"; B "b"; B "c"]) /\
  Z.of_nat (length [B "a"; B "b"; B "c"]) <= maxInt /\
  findLines (unlines [B "a"; B "b"; B "c"]) 2 minInt = Done (unlines [B "b"; B "c"]).
Proof.
  assert (H1 : Forall nlfree [B "a"; B "b"; B "c"])
    by (repeat constructor; discriminate).
  assert (H2 : 2 <= 2) by lia.
  assert (H3 : 2 - 1 <= Z.of_nat (length [B "a"; B "b"; B "c"])) by (simpl; lia).
  assert (H4 : Z.of_nat (length [B "a"; B "b"; B "c"]) <= maxInt)
    by (vm_compute; discriminate).
  repeat (split; [assumption|]).
  exact (findLines_end_wraps [B "a"; B "b"; B "c"] 2 H1 H2 H3 H4).
Defined.

(** ** File extensions *)

Lemma LastIndex_absent (s : bytes) (sep : byte) :
  Forall (fun c => byte_eqb c sep = false) s -> LastIndex s sep = -1.
Proof.
  induction 1 as [|c t Hc _ IH]; [reflexivity|].
  cbn [LastIndex]. rewrite IH, Hc. reflexivity.
Qed.

Lemma LastIndex_last (stem ext : bytes) (sep : byte) :
  Forall (fun c => byte_eqb c sep = false) ext ->
  LastIndex (stem ++ sep :: ext) sep = len stem.
Proof.
  intros Hext. induction stem as [|c stem IH].
  - cbn [app LastIndex]. rewrite (LastIndex_absent ext sep Hext), byte_eqb_refl.
    reflexivity.
  - cbn [app LastIndex]. rewrite IH, len_cons.
    pose proof (len_nonneg stem).
    replace (0 <=? len stem) with true by (symmetry; apply Z.leb_le; lia). lia.
Qed.

(** A text has no [sep], or splits at its last [sep]. *)
Lemma split_at_last (s : bytes) (sep : byte) :
  Forall (fun c => byte_eqb c sep = false) s \/
  exists stem ext, s = stem ++ sep :: ext /\
                   Forall (fun c => byte_eqb c sep = false) ext.
Proof.
  induction s as [|c t IH]; [left; constructor|].
  destruct IH as [Hno | (stem & ext & -> & Hext)].
  - destruct (byte_eqb c sep) eqn:E.
    + apply byte_eqb_eq in E. subst c. right. exists [], t. split; [reflexivity | exact Hno].
    + left. constructor; assumption.
  - right. exists (c :: stem), ext. split; [reflexivity | exact Hext].
Qed.

Lemma fileExt_split (stem ext : bytes) :
  Forall (fun c => byte_eqb c "."%char = false) ext ->
  fileExt (stem ++ "."%char :: ext) = Done ext.
Proof.
  intros Hext. unfold fileExt. rewrite (LastIndex_last stem ext _ Hext).
  pose proof (len_nonneg stem).
  replace (len stem =? -1) with false by (symmetry; apply Z.eqb_neq; lia).
  cbn [negb].
  replace (stem ++ "."%char :: ext) with ((stem ++ ["."%char]) ++ ext)
    by (rewrite <- app_assoc; reflexivity).
  replace (len stem + 1) with (len (stem ++ ["."%char]))
    by (rewrite len_app, len_cons, len_nil; lia).
  apply slice_app_right.
Qed.

(** X6.  [fileExt] returns what follows the last dot of the path: the
    extension [ext] of [stem.ext] when [ext] has no dot, and the empty
    string for a path without a dot.  It never slices out of range,
    and what it returns has no dot. *)
Theorem fileExt_after_last_dot :
  (forall stem ext : bytes,
      Forall (fun c => byte_eqb c "."%char = false) ext ->
      fileExt (stem ++ B "." ++ ext) = Done ext)
  /\ (forall path : bytes,
        Forall (fun c => byte_eqb c "."%char = false) path ->
        fileExt path = Done [])
  /\ (forall path : bytes,
        exists ext, fileExt path = Done ext /\
                    Forall (fun c => byte_eqb c "."%char = false) ext /\
                    exists stem, stem ++ ext = path).
Proof.
  split; [|split].
  - intros stem ext Hext. apply fileExt_split. exact Hext.
  - intros path Hno. unfold fileExt. rewrite (LastIndex_absent path _ Hno). reflexivity.
  - intros path. destruct (split_at_last path "."%char) as [Hno | (stem & ext & -> & Hext)].
    + exists []. split; [|split; [constructor | exists path; apply app_nil_r]].
      unfold fileExt. rewrite (LastIndex_absent path _ Hno). reflexivity.
    + exists ext. split; [apply fileExt_split; exact Hext|].
      split; [exact Hext|]. exists (stem ++ ["."%char]).
      rewrite <- app_assoc. reflexivity.
Qed.

Lemma fileExt_after_last_dot_witness :
  (Forall (fun c => byte_eqb c "."%char = false) (B "go") /\
   fileExt (B "src/pkg.v2/main" ++ B "." ++ B "go") = Done (B "go"))
  /\ (Forall (fun c => byte_eqb c "."%char = false) (B "Makefile") /\
      fileExt (B "Makefile") = Done []).
Proof.
  assert (H1 : Forall (fun c => byte_eqb c "."%char = false) (B "go"))
    by (repeat constructor).
  assert (H2 : Forall (fun c => byte_eqb c "."%char = false) (B "Makefile"))
    by (repeat constructor).
  split; (split; [assumption|]).
  - exact (proj1 fileExt_after_last_dot (B "src/pkg.v2/main") (B "go") H1).
  - exact (proj1 (proj2 fileExt_after_last_dot) (B "Makefile") H2).
Defined.

(** ** The lines the loop passes over, and the shape of its trace *)

Section LoopFacts.
Context {W : Type} `{Backend W}.
Local Open Scope go_scope.

Lemma replayLine_skipped (new line : bytes) (s : Session W) :
  isSkipped line = true -> replayLine new line s = Done (Next, s).
Proof.
  intros Hs. destruct line as [|c0 t]; [reflexivity|].
  apply replayLine_content. exact Hs.
Qed.

Lemma replayLines_skipped (new : bytes) (lines : list bytes) (s : Session W) :
  Forall (fun l => isSkipped l = true) lines ->
  replayLines new lines s = Done (tt, s).
Proof.
  induction 1 as [|l lines Hl _ IH]; [reflexivity|].
  rewrite (replayLines_next new l lines s s (replayLine_skipped new l s Hl)).
  exact IH.
Qed.

(** X7.  Blank lines and content lines (those that start with [<],
    [-] or [>]) have no part in the replay: it does what it does on
    the diff lines that remain once they are taken out. *)
Theorem replay_ignores_content (new : bytes) (lines : list bytes) (s : Session W) :
  replayLines new lines s
  = replayLines new (filter (fun l => negb (isSkipped l)) lines) s.
Proof.
  revert s. induction lines as [|l lines IH]; intros s; [reflexivity|].
  cbn [filter]. destruct (isSkipped l) eqn:E; cbn [negb].
  - rewrite (replayLines_next new l lines s s (replayLine_skipped new l s E)).
    apply IH.
  - cbn [replayLines]. unfold bind.
    destruct (replayLine new l s) as [[[|] s']| |]; try reflexivity.
    apply IH.
Qed.

Lemma addressed_app_le (n : nat) :
  forall a b, (length a <= n)%nat ->
    addressed a = true -> addressed b = true -> addressed (a ++ b) = true.
Proof.
  induction n as [|n IH]; intros a b Hn Ha Hb.
  - destruct a; [exact Hb | simpl in Hn; lia].
  - destruct a as [|e1 a1]; [exact Hb|].
    simpl in Hn.
    destruct e1 as [f e | f args e | f d e | m]; try discriminate Ha.
    + destruct a1 as [|e2 a2]; [discriminate Ha|].
      simpl in Hn. cbn [addressed app] in *.
      apply andb_true_iff in Ha as [Hf Ha]. rewrite Hf.
      apply IH; [lia | assumption | assumption].
    + cbn [addressed app] in *. apply IH; [lia | exact Ha | assumption].
Qed.

(** In an addressed trace, a failed address other than [$] is
    followed by the log of its error. *)
Lemma addressed_failed_le (n : nat) :
  forall pre fmt args post, (length pre <= n)%nat ->
    addressed (pre ++ EvAddr fmt args true :: post) = true ->
    bytes_eqb fmt (B "$") = false ->
    exists post', post = EvLog LogErr :: post'.
Proof.
  assert (Hbase : forall fmt args post,
             addressed (EvAddr fmt args true :: post) = true ->
             bytes_eqb fmt (B "$") = false ->
             exists post', post = EvLog LogErr :: post').
  { intros fmt args [|e post] Ha Hf; [discriminate Ha|].
    cbn [addressed] in Ha. apply andb_true_iff in Ha as [Ha _].
    destruct e as [f e | f a e | f d e | m]; try discriminate Ha.
    - cbn [afterAddr] in Ha. rewrite Hf, andb_false_r in Ha. discriminate Ha.
    - destruct m; try discriminate Ha. eauto. }
  induction n as [|n IH]; intros pre fmt args post Hn Ha Hf.
  - destruct pre; [|simpl in Hn; lia]. apply (Hbase fmt args post Ha Hf).
  - destruct pre as [|e1 pre1]; [apply (Hbase fmt args post Ha Hf)|].
    simpl in Hn.
    destruct e1 as [f e | f a e | f d e | m]; try discriminate Ha.
    + destruct pre1 as [|e2 pre2].
      * cbn [addressed app afterAddr] in Ha. discriminate Ha.
      * simpl in Hn. cbn [addressed app] in Ha.
        apply andb_true_iff in Ha as [_ Ha].
        apply (IH pre2 fmt args post); [lia | exact Ha | exact Hf].
    + cbn [addressed app] in Ha.
      apply (IH pre1 fmt args post); [lia | exact Ha | exact Hf].
Qed.

(** In an addressed trace, a write is a write to [data] that comes
    right after an address call, which was accepted unless it is the
    [$] of the marker. *)
Lemma addressed_write_le (n : nat) :
  forall pre file data e post, (length pre <= n)%nat ->
    addressed (pre ++ EvWrite file data e :: post) = true ->
    file = B "data" /\
    exists pre' fmt args err,
      pre = pre' ++ [EvAddr fmt args err] /\
      (err = true -> fmt = B "$" /\ data = [NL]).
Proof.
  induction n as [|n IH]; intros pre file data e post Hn Ha.
  - destruct pre; [discriminate Ha | simpl in Hn; lia].
  - destruct pre as [|e1 pre1]; [discriminate Ha|].
    simpl in Hn.
    destruct e1 as [f0 e0 | f0 a0 e0 | f0 d0 e0 | m]; try discriminate Ha.
    + destruct pre1 as [|e2 pre2].
      * cbn [addressed app afterAddr] in Ha.
        apply andb_true_iff in Ha as [Ha _].
        apply andb_true_iff in Ha as [Hfile Hok].
        apply bytes_eqb_eq in Hfile. split; [exact Hfile|].
        exists [], f0, a0, e0. split; [reflexivity|].
        intros ->. destruct (bytes_eqb f0 (B "$")) eqn:Ef; [|discriminate Hok].
        apply bytes_eqb_eq in Ef, Hok. split; assumption.
      * simpl in Hn. cbn [addressed app] in Ha.
        apply andb_true_iff in Ha as [_ Ha].
        destruct (IH pre2 file data e post ltac:(lia) Ha)
          as (Hfile & pre' & fmt & args & err & -> & Herr).
        split; [exact Hfile|].
        exists (EvAddr f0 a0 e0 :: e2 :: pre'), fmt, args, err.
        split; [reflexivity | exact Herr].
    + cbn [addressed app] in Ha.
      destruct (IH pre1 file data e post ltac:(lia) Ha)
        as (Hfile & pre' & fmt & args & err & -> & Herr).
      split; [exact Hfile|].
      exists (EvLog m :: pre'), fmt, args, err.
      split; [reflexivity | exact Herr].
Qed.

Lemma addressed_app (a b : list event) :
  addressed a = true -> addressed b = true -> addressed (a ++ b) = true.
Proof. apply (addressed_app_le (length a)). lia. Qed.

Lemma addressedSince_add (base block : list event) (s s' : Session W) :
  addressedSince base s -> events s' = events s ++ block ->
  addressed block = true -> addressedSince base s'.
Proof.
  intros (added & E & Ha) E' Hb. exists (added ++ block).
  split; [rewrite E', E, app_assoc; reflexivity | apply addressed_app; assumption].
Qed.

Lemma addressed_log (base : list event) (m : logmsg) :
  keeps (@addressedSince W base) (log m).
Proof.
  intros s Hs. eexists; eexists. split; [reflexivity|].
  apply (addressedSince_add base [EvLog m] s); [assumption | reflexivity | reflexivity].
Qed.

(** An address call and what follows it in a case of the switch. *)
Lemma addressed_Addr_Write (base : list event) (fmt : bytes) (args : list Z)
    (data : bytes) :
  bytes_eqb fmt (B "$") = false ->
  keeps (@addressedSince W base)
    (err <- Addr fmt args ;; if err then log LogErr else Write (B "data") data).
Proof.
  intros Hfmt s Hs. unfold bind, Addr, Write, log.
  destruct (Win_Addr fmt args (win s)) as [[|] w'].
  - eexists; eexists. split; [reflexivity|].
    apply (addressedSince_add base [EvAddr fmt args true; EvLog LogErr] s);
      [assumption | | cbn [addressed afterAddr]; rewrite Hfmt; reflexivity].
    unfold emit. cbn [events]. rewrite <- app_assoc. reflexivity.
  - cbn [win]. destruct (Win_Write (B "data") data w') as [e2 w''].
    eexists; eexists. split; [reflexivity|].
    apply (addressedSince_add base [EvAddr fmt args false; EvWrite (B "data") data e2] s);
      [assumption | | cbn [addressed afterAddr]; rewrite Hfmt; reflexivity].
    cbn [events]. rewrite <- app_assoc. reflexivity.
Qed.

Lemma addressed_Addr_findLines (base : list event) (fmt : bytes) (args : list Z)
    (new : bytes) (newStart newEnd : Z) :
  bytes_eqb fmt (B "$") = false ->
  keeps (@addressedSince W base)
    (err <- Addr fmt args ;;
     if err then log LogErr
     else data <- lift (findLines new newStart newEnd) ;; Write (B "data") data).
Proof.
  destruct (findLines_returns new newStart newEnd) as (sb & eb & _ & _ & _ & E).
  intros Hfmt s Hs.
  destruct (addressed_Addr_Write base fmt args
              (firstn (Z.to_nat (eb - sb)) (skipn (Z.to_nat sb) new)) Hfmt s Hs)
    as (a & s' & E' & Hs').
  exists a, s'. split; [|exact Hs'].
  rewrite <- E'. unfold bind, lift. rewrite E.
  destruct (Addr fmt args s) as [[[|] s1]| |]; reflexivity.
Qed.

Lemma addressed_applyOp (base : list event) (new : bytes) (op : byte)
    (oldStart oldEnd newStart newEnd : Z) :
  keeps (@addressedSince W base) (applyOp new op oldStart oldEnd newStart newEnd).
Proof.
  unfold applyOp.
  destruct (byte_eqb op "a"%char); [apply addressed_Addr_findLines; reflexivity|].
  destruct (byte_eqb op "c"%char); [apply addressed_Addr_findLines; reflexivity|].
  destruct (byte_eqb op "d"%char); [apply addressed_Addr_Write; reflexivity|].
  intros s Hs. exists tt, s. split; [reflexivity | assumption].
Qed.

(** The end-of-file marker: the address [$] and the newline written
    to it, whether or not the address was accepted. *)
Lemma addressed_marker (base : list event) :
  keeps (@addressedSince W base)
    (_ <- Addr (B "$") [] ;; Write (B "data") [NL] ;; ret Next).
Proof.
  intros s Hs. unfold bind, Addr, Write, ret.
  destruct (Win_Addr (B "$") [] (win s)) as [e1 w']. cbn [win].
  destruct (Win_Write (B "data") [NL] w') as [e2 w''].
  eexists; eexists. split; [reflexivity|].
  apply (addressedSince_add base [EvAddr (B "$") [] e1; EvWrite (B "data") [NL] e2] s);
    [assumption | | reflexivity].
  cbn [events]. rewrite <- app_assoc. reflexivity.
Qed.

Lemma addressed_replayLine (base : list event) (new line : bytes) :
  keeps (@addressedSince W base) (replayLine new line).
Proof.
  set (I := @addressedSince W base).
  unfold replayLine.
  destruct line as [|c0 rest] eqn:El; [apply keeps_ret|].
  rewrite <- El. replace (bytes_eqb line []) with false by (rewrite El; reflexivity).
  destruct (bytes_eqb line noNewline); [apply addressed_marker|].
  apply (keeps_bind_lift I _ c0); [rewrite El; reflexivity|].
  destruct (byte_eqb c0 "<"%char || byte_eqb c0 "-"%char || byte_eqb c0 ">"%char);
    [apply keeps_ret|].
  apply (keeps_bind_lift I _ _ _ (scanOp_opIndex line)).
  pose proof (opIndex_range line) as Hj.
  destruct (Z.leb_spec (len line) (opIndex line)) as [Hge|Hlt].
  { apply keeps_bind; [apply addressed_log|]. intros _. apply keeps_ret. }
  apply (keeps_bind_lift I _ _ _
           (slice_ok line 0 (opIndex line) ltac:(lia) ltac:(lia))).
  apply keeps_bind; [apply keeps_parseSpan; apply addressed_log|].
  intros [oldStart oldEnd].
  apply (keeps_bind_lift I _ _ _
           (slice_ok line (opIndex line + 1) (len line) ltac:(lia) ltac:(lia))).
  apply keeps_bind; [apply keeps_parseSpan; apply addressed_log|].
  intros [newStart newEnd].
  destruct ((oldStart =? 0) || (newStart =? 0)); [apply keeps_ret|].
  assert (Hop : exists op, idx line (opIndex line) = Done op).
  { unfold idx.
    replace ((0 <=? opIndex line) && (opIndex line <? len line)) with true
      by (symmetry; rewrite andb_true_iff, Z.leb_le, Z.ltb_lt; lia).
    destruct (nth_error line (Z.to_nat (opIndex line))) eqn:E; [eauto|].
    apply nth_error_None in E. unfold len in Hlt. lia. }
  destruct Hop as [op Hop].
  apply (keeps_bind_lift I _ _ _ Hop).
  apply keeps_bind; [apply addressed_applyOp|]. intros _. apply keeps_ret.
Qed.

Lemma addressed_replayLines (base : list event) (new : bytes) (lines : list bytes) :
  keeps (@addressedSince W base) (replayLines new lines).
Proof.
  induction lines as [|line rest IH]; cbn [replayLines]; [apply keeps_ret|].
  apply keeps_bind; [apply addressed_replayLine|].
  intros [|]; [exact IH | apply keeps_ret].
Qed.

(** X8.  When [reformat] returns true, its trace is the read of the
    body, the control writes [mark] and [nomark] in that order, and
    then an addressed trace: every further write is a write to [data]
    that comes right after an address call, and the address calls of
    the operations [a], [c], [d] that failed are followed by the log
    of the failure and by no write.  The one write that may follow a
    failed address is the newline of the end-of-file marker, after
    its address [$], whose error the loop does not look at. *)
Theorem reformat_trace_shape (world : World) (id : Z) (name : bytes)
    (fmter : Formatter) (w : W) (s : Session W) :
  reformat world id name fmter w = Done (true, s) ->
  exists e1 e2 tail,
    events s = [EvReadAll (B "body") false;
                EvWrite (B "ctl") (B "mark") e1;
                EvWrite (B "ctl") (B "nomark") e2] ++ tail /\
    addressed tail = true /\
    (forall pre fmt args post,
        tail = pre ++ EvAddr fmt args true :: post -> fmt <> B "$" ->
        exists post', post = EvLog LogErr :: post') /\
    (forall pre file data e post,
        tail = pre ++ EvWrite file data e :: post ->
        file = B "data" /\
        exists pre' fmt args err,
          pre = pre' ++ [EvAddr fmt args err] /\
          (err = true -> fmt = B "$" /\ data = [NL])).
Proof.
  unfold reformat, reformatM. intros E.
  destruct (acme_Open_err world id); [discriminate E|].
  destruct (ioutil_ReadFile world name) as [old|]; [|discriminate E].
  destruct (format fmter name) as [new [|]]; [discriminate E|].
  destruct (bytes_eqb old new); [discriminate E|].
  destruct (ioutil_TempFile_err world); [discriminate E|].
  destruct (tmp_Write_err world); [discriminate E|].
  unfold bind at 1 in E. unfold ReadAll in E.
  destruct (Win_ReadAll (B "body") (win (open w))) as [[latest|] w1];
    [|discriminate E].
  destruct (negb (bytes_eqb old latest)); [discriminate E|].
  unfold bind at 1 in E. unfold Write at 1 in E. cbn [win modified events open] in E.
  destruct (Win_Write (B "ctl") (B "mark") w1) as [e1 w2].
  unfold bind at 1 in E. unfold Write at 1 in E. cbn [win modified events] in E.
  destruct (Win_Write (B "ctl") (B "nomark") w2) as [e2 w3].
  cbn [app] in E.
  match type of E with
  | bind (replay ?new ?diff) _ ?s3 = _ =>
      pose proof (addressed_replayLines (events s3) new (rev (Split diff NL)) s3) as Hrep
  end.
  destruct Hrep as ([] & s4 & E4 & (tail & Ht & Ha)).
  { exists []. split; [symmetry; apply app_nil_r | reflexivity]. }
  unfold bind, replay in E. rewrite E4 in E.
  injection E as _ <-. exists e1, e2, tail.
  split; [exact Ht|]. split; [exact Ha|]. split.
  - intros pre fmt args post -> Hfmt.
    apply (addressed_failed_le (length pre) pre fmt args post (Nat.le_refl _) Ha).
    apply bytes_eqb_neq. exact Hfmt.
  - intros pre file data e post ->.
    apply (addressed_write_le (length pre) pre file data e post (Nat.le_refl _) Ha).
Qed.
End LoopFacts.


(** ** The ways out of [reformat] *)

Section ExitFacts.
Context {W : Type} `{Backend W}.
Local Open Scope go_scope.

(** X9.  When a step before the replay fails ([acme.Open], the read of
    the file, the formatter, the temporary file or its write, the read
    of the body), [reformat] returns false and has set no address and
    issued no write: the window keeps its text. *)
Theorem reformat_failure_touches_nothing (world : World) (id : Z) (name : bytes)
    (fmter : Formatter) (w : W) :
  acme_Open_err world id = true \/
  ioutil_ReadFile world name = None \/
  snd (format fmter name) = true \/
  ioutil_TempFile_err world = true \/
  tmp_Write_err world = true \/
  fst (Win_ReadAll (B "body") w) = None ->
  exists s, reformat world id name fmter w = Done (false, s) /\
            noWrites (events s) /\
            forallb (fun e => negb (isAddr e)) (events s) = true /\
            modified s = false.
Proof.
  intros Hfail. unfold reformat, reformatM.
  destruct (acme_Open_err world id);
    [eexists; split; [reflexivity | repeat split]|].
  destruct (ioutil_ReadFile world name) as [old|];
    [|eexists; split; [reflexivity | repeat split]].
  destruct (format fmter name) as [new [|]];
    [eexists; split; [reflexivity | repeat split]|].
  destruct (bytes_eqb old new); [eexists; split; [reflexivity | repeat split]|].
  destruct (ioutil_TempFile_err world);
    [eexists; split; [reflexivity | repeat split]|].
  destruct (tmp_Write_err world);
    [eexists; split; [reflexivity | repeat split]|].
  unfold bind at 1. unfold ReadAll. cbn [open win modified events].
  destruct (Win_ReadAll (B "body") w) as [[latest|] w1].
  - cbn [fst snd] in Hfail.
    destruct Hfail as [F | [F | [F | [F | [F | F]]]]]; discriminate F.
  - eexists; split; [reflexivity | repeat split].
Qed.

(** X10.  When the guard passes and the diff holds nothing but blank
    and content lines (an empty diff output among them), [reformat]
    still returns true; all it did to the window is read the body and
    write [mark] and [nomark]. *)
Theorem reformat_without_hunks (world : World) (id : Z) (name : bytes)
    (fmter : Formatter) (w w1 : W) (old new : bytes) :
  acme_Open_err world id = false ->
  ioutil_ReadFile world name = Some old ->
  format fmter name = (new, false) ->
  old <> new ->
  ioutil_TempFile_err world = false -> tmp_Write_err world = false ->
  Win_ReadAll (B "body") w = (Some old, w1) ->
  Forall (fun l => isSkipped l = true) (Split (usr_bin_diff world old new) NL) ->
  reformat world id name fmter w
  = Done (true,
          {| win := snd (Win_Write (B "ctl") (B "nomark")
                           (snd (Win_Write (B "ctl") (B "mark") w1)));
             modified := true;
             events :=
               [EvReadAll (B "body") false;
                EvWrite (B "ctl") (B "mark") (fst (Win_Write (B "ctl") (B "mark") w1));
                EvWrite (B "ctl") (B "nomark")
                  (fst (Win_Write (B "ctl") (B "nomark")
                          (snd (Win_Write (B "ctl") (B "mark") w1))))] |}).
Proof.
  intros Hopen Hread Hfmt Hne Htmp Htw Hbody Hskip.
  unfold reformat, reformatM.
  rewrite Hopen, Hread, Hfmt, Htmp, Htw, (bytes_eqb_neq old new Hne).
  unfold bind at 1. unfold ReadAll. cbn [open win modified events].
  rewrite Hbody, bytes_eqb_refl. cbn [negb app].
  unfold bind at 1. unfold Write at 1. cbn [win modified events].
  destruct (Win_Write (B "ctl") (B "mark") w1) as [e1 w2].
  unfold bind at 1. unfold Write at 1. cbn [win modified events app fst snd].
  destruct (Win_Write (B "ctl") (B "nomark") w2) as [e2 w3].
  unfold bind, replay.
  rewrite replayLines_skipped by (apply Forall_rev; exact Hskip).
  reflexivity.
Qed.

End ExitFacts.

Lemma reformat_failure_touches_nothing_witness :
  (acme_Open_err (calm (unlines [B "a"]) []) 1 = true \/
   ioutil_ReadFile (calm (unlines [B "a"]) []) (B "f.go") = None \/
   snd (format {| format := fun _ => (B "f.go:1:1: expected 'package'", true) |}
               (B "f.go")) = true \/
   ioutil_TempFile_err (calm (unlines [B "a"]) []) = true \/
   tmp_Write_err (calm (unlines [B "a"]) []) = true \/
   fst (Win_ReadAll (B "body") (Acme.holding (unlines [B "a"]))) = None)
  /\ exists s,
       reformat (calm (unlines [B "a"]) []) 1 (B "f.go")
                {| format := fun _ => (B "f.go:1:1: expected 'package'", true) |}
                (Acme.holding (unlines [B "a"]))
       = Done (false, s) /\
       noWrites (events s) /\
       forallb (fun e => negb (isAddr e)) (events s) = true /\
       modified s = false.
Proof.
  assert (H1 : acme_Open_err (calm (unlines [B "a"]) []) 1 = true \/
               ioutil_ReadFile (calm (unlines [B "a"]) []) (B "f.go") = None \/
               snd (format {| format := fun _ => (B "f.go:1:1: expected 'package'", true) |}
                           (B "f.go")) = true \/
               ioutil_TempFile_err (calm (unlines [B "a"]) []) = true \/
               tmp_Write_err (calm (unlines [B "a"]) []) = true \/
               fst (Win_ReadAll (B "body") (Acme.holding (unlines [B "a"]))) = None)
    by (right; right; left; reflexivity).
  split; [exact H1|].
  exact (reformat_failure_touches_nothing _ 1 (B "f.go") _ _ H1).
Defined.

Lemma reformat_without_hunks_witness :
  let world := calm (unlines [B "a"]) [] in
  acme_Open_err world 1 = false /\
  ioutil_ReadFile world (B "f.go") = Some (unlines [B "a"]) /\
  format (printing (unlines [B "a"; B "b"])) (B "f.go") = (unlines [B "a"; B "b"], false) /\
  unlines [B "a"] <> unlines [B "a"; B "b"] /\
  ioutil_TempFile_err world = false /\ tmp_Write_err world = false /\
  Win_ReadAll (B "body") (Acme.holding (unlines [B "a"]))
  = (Some (unlines [B "a"]), Acme.holding (unlines [B "a"])) /\
  Forall (fun l => isSkipped l = true)
    (Split (usr_bin_diff world (unlines [B "a"]) (unlines [B "a"; B "b"])) NL) /\
  reformat world 1 (B "f.go") (printing (unlines [B "a"; B "b"]))
           (Acme.holding (unlines [B "a"]))
  = Done (true,
          {| win := Acme.holding (unlines [B "a"]);
             modified := true;
             events := [EvReadAll (B "body") false;
                        EvWrite (B "ctl") (B "mark") false;
                        EvWrite (B "ctl") (B "nomark") false] |}).
Proof.
  intros world.
  assert (H1 : acme_Open_err world 1 = false) by reflexivity.
  assert (H2 : ioutil_ReadFile world (B "f.go") = Some (unlines [B "a"])) by reflexivity.
  assert (H3 : format (printing (unlines [B "a"; B "b"])) (B "f.go")
               = (unlines [B "a"; B "b"], false)) by reflexivity.
  assert (H4 : unlines [B "a"] <> unlines [B "a"; B "b"]) by (vm_compute; discriminate).
  assert (H5 : ioutil_TempFile_err world = false) by reflexivity.
  assert (H6 : tmp_Write_err world = false) by reflexivity.
  assert (H7 : Win_ReadAll (B "body") (Acme.holding (unlines [B "a"]))
               = (Some (unlines [B "a"]), Acme.holding (unlines [B "a"])))
    by reflexivity.
  assert (H8 : Forall (fun l => isSkipped l = true)
                 (Split (usr_bin_diff world (unlines [B "a"]) (unlines [B "a"; B "b"])) NL))
    by (repeat constructor).
  repeat (split; [assumption|]).
  exact (reformat_without_hunks world 1 (B "f.go") (printing (unlines [B "a"; B "b"]))
           (Acme.holding (unlines [B "a"])) (Acme.holding (unlines [B "a"]))
           (unlines [B "a"]) (unlines [B "a"; B "b"]) H1 H2 H3 H4 H5 H6 H7 H8).
Defined.

(** ** The loop of [main] *)

Section MainFacts.
Context {W : Type} `{Backend W}.
Local Open Scope go_scope.

Lemma always_log (m : logmsg) : keeps (fun _ : Session W => True) (log m).
Proof. intros s _. eexists; eexists. split; [reflexivity | exact Logic.I]. Qed.

Lemma always_Addr (fmt : bytes) (args : list Z) :
  keeps (fun _ : Session W => True) (Addr fmt args).
Proof.
  intros s _. unfold Addr. destruct (Win_Addr fmt args (win s)) as [err w'].
  eexists; eexists. split; [reflexivity | exact Logic.I].
Qed.

Lemma always_Write (ftype data : bytes) :
  keeps (fun _ : Session W => True) (Write ftype data).
Proof.
  intros s _. unfold Write. destruct (Win_Write ftype data (win s)) as [err w'].
  eexists; eexists. split; [reflexivity | exact Logic.I].
Qed.

Lemma reformat_returns (world : World) (id : Z) (name : bytes)
    (fmter : Formatter) (w : W) :
  exists r, reformat world id name fmter w = Done r.
Proof.
  unfold reformat, reformatM.
  destruct (acme_Open_err world id); [eexists; reflexivity|].
  destruct (ioutil_ReadFile world name) as [old|]; [|eexists; reflexivity].
  destruct (format fmter name) as [new [|]]; [eexists; reflexivity|].
  destruct (bytes_eqb old new); [eexists; reflexivity|].
  destruct (ioutil_TempFile_err world); [eexists; reflexivity|].
  destruct (tmp_Write_err world); [eexists; reflexivity|].
  unfold bind at 1. unfold ReadAll. cbn [open win modified events].
  destruct (Win_ReadAll (B "body") w) as [[latest|] w1]; [|eexists; reflexivity].
  destruct (negb (bytes_eqb old latest)); [eexists; reflexivity|].
  unfold bind at 1. unfold Write at 1. cbn [win modified events].
  destruct (Win_Write (B "ctl") (B "mark") w1) as [e1 w2].
  unfold bind at 1. unfold Write at 1. cbn [win modified events app fst snd].
  destruct (Win_Write (B "ctl") (B "nomark") w2) as [e2 w3].
  match goal with
  | |- exists r, bind (replay ?new ?diff) _ ?s3 = _ =>
      destruct (keeps_replayLines (fun _ => True) always_log always_Addr always_Write
                  new (rev (Split diff NL)) s3 Logic.I) as ([] & s4 & E4 & _)
  end.
  unfold bind, replay. rewrite E4. eexists; reflexivity.
Qed.

Lemma bytes_eqb_sym (a b : bytes) : bytes_eqb a b = bytes_eqb b a.
Proof.
  destruct (bytes_eqb a b) eqn:E.
  - apply bytes_eqb_eq in E. subst b. symmetry. apply bytes_eqb_refl.
  - destruct (bytes_eqb b a) eqn:E'; [|reflexivity].
    apply bytes_eqb_eq in E'. subst b. rewrite bytes_eqb_refl in E. discriminate E.
Qed.

Lemma fileExt_returns (path : bytes) : exists ext, fileExt path = Done ext.
Proof.
  destruct (split_at_last path "."%char) as [Hno | (stem & ext & -> & Hext)].
  - exists []. unfold fileExt. rewrite (LastIndex_absent path _ Hno). reflexivity.
  - exists ext. apply fileExt_split. exact Hext.
Qed.

(** X11.  A put of [stem.ext] makes [main] call [reformat] once, with
    the formatter that [newFmts] registers for [ext]: goimports for
    [go], yapf for [py], fmtrust for [rs], elmfmt for [elm].  Every
    other extension gets aeol and sets [anyextFmtUsed], except the
    extension [anyext] itself, which is a key of the map: it gets aeol
    with the flag left false. *)
Theorem main_formatter_by_extension (world : World) (os : Exec) (id : Z)
    (stem ext : bytes) (w : W) :
  Forall (fun c => byte_eqb c "."%char = false) ext ->
  let name := stem ++ B "." ++ ext in
  let f := if bytes_eqb ext (B "go") then GoImportFmt (B "goimports")
           else if bytes_eqb ext (B "py") then PyFmt (B "yapf")
           else if bytes_eqb ext (B "rs") then RustFmt (B "fmtrust")
           else if bytes_eqb ext (B "elm") then ElmFmt (B "elmfmt")
           else DefaultEolFmt (B "aeol") in
  let fallback := negb (bytes_eqb ext (B "go") || bytes_eqb ext (B "py") ||
                        bytes_eqb ext (B "rs") || bytes_eqb ext (B "elm") ||
                        bytes_eqb ext (B "anyext")) in
  handleEvent world os newFmts {| ID := id; Op := B "put"; Name := name |} w
  = (r <~ reformat world id name (asFormatter os f) w;
     Done {| h_modified := fst r; h_anyextFmtUsed := fallback;
             h_session := Some (snd r);
             h_after := afterReformat os name (fst r) fallback |})%outcome.
Proof.
  intros Hext name f fallback. unfold handleEvent. cbn [Name Op ID].
  assert (Hname : bytes_eqb name [] = false).
  { apply bytes_eqb_neq. unfold name. destruct stem; discriminate. }
  rewrite Hname, bytes_eqb_refl. cbn [negb andb].
  unfold name at 1. change (B "." ++ ext) with ("."%char :: ext).
  rewrite (fileExt_split stem ext Hext).
  unfold obind at 1.
  change (mapGet newFmts ext) with
    (if bytes_eqb (B "anyext") ext then Some (DefaultEolFmt (B "aeol"))
     else if bytes_eqb (B "elm") ext then Some (ElmFmt (B "elmfmt"))
     else if bytes_eqb (B "rs") ext then Some (RustFmt (B "fmtrust"))
     else if bytes_eqb (B "go") ext then Some (GoImportFmt (B "goimports"))
     else if bytes_eqb (B "py") ext then Some (PyFmt (B "yapf"))
     else None).
  change (mapGet newFmts (B "anyext")) with (Some (DefaultEolFmt (B "aeol"))).
  rewrite (bytes_eqb_sym (B "anyext") ext), (bytes_eqb_sym (B "elm") ext),
    (bytes_eqb_sym (B "rs") ext), (bytes_eqb_sym (B "go") ext),
    (bytes_eqb_sym (B "py") ext).
  unfold f, fallback.
  destruct (bytes_eqb ext (B "go")) eqn:Ego.
  { apply bytes_eqb_eq in Ego. subst ext. reflexivity. }
  destruct (bytes_eqb ext (B "py")) eqn:Epy.
  { apply bytes_eqb_eq in Epy. subst ext. reflexivity. }
  destruct (bytes_eqb ext (B "rs")) eqn:Ers.
  { apply bytes_eqb_eq in Ers. subst ext. reflexivity. }
  destruct (bytes_eqb ext (B "elm")) eqn:Eelm.
  { apply bytes_eqb_eq in Eelm. subst ext. reflexivity. }
  destruct (bytes_eqb ext (B "anyext")); reflexivity.
Qed.

(** X12.  One iteration of the loop of [main] always completes with
    the formatters of [newFmts]: the key [anyext] is there, and
    neither [fileExt] nor [reformat] panics.  For a put with a name,
    [reformat] is called once, with the formatter that the map holds
    for the extension of the name, or with the one at [anyext] when it
    holds none; [modified] is what that call returned, and bl2plus is
    run on the file, and its output printed, exactly when the call
    returned false or the map held no formatter.  Any other event
    opens no window and runs nothing. *)
Theorem main_runs_bl2plus (world : World) (os : Exec) (event : LogEvent) (w : W) :
  let c := Command (B "bl2plus") [Name event] in
  if negb (bytes_eqb (Name event) []) && bytes_eqb (Op event) (B "put") then
    exists ext b s,
      fileExt (Name event) = Done ext /\
      let fallback := match mapGet newFmts ext with Some _ => false | None => true end in
      let f := match mapGet newFmts ext with
               | Some f => f
               | None => DefaultEolFmt (B "aeol")
               end in
      reformat world (ID event) (Name event) (asFormatter os f) w = Done (b, s) /\
      handleEvent world os newFmts event w
      = Done {| h_modified := b; h_anyextFmtUsed := fallback;
                h_session := Some s;
                h_after := if negb b || fallback
                           then [Ran c; Printed (MsgOutput (fst (CombinedOutput os c)))]
                           else [] |}
  else
    handleEvent world os newFmts event w
    = Done {| h_modified := false; h_anyextFmtUsed := false;
              h_session := None; h_after := [] |}.
Proof.
  intros c. unfold handleEvent.
  destruct (negb (bytes_eqb (Name event) []) && bytes_eqb (Op event) (B "put"));
    [|reflexivity].
  destruct (fileExt_returns (Name event)) as (ext & Eext). rewrite Eext.
  unfold obind at 1.
  change (mapGet newFmts (B "anyext")) with (Some (DefaultEolFmt (B "aeol"))).
  destruct (mapGet newFmts ext) as [f|] eqn:Em.
  - destruct (reformat_returns world (ID event) (Name event) (asFormatter os f) w)
      as ([b s] & Er).
    exists ext, b, s. split; [reflexivity|]. cbv zeta. rewrite Em.
    split; [exact Er|]. rewrite Er. reflexivity.
  - destruct (reformat_returns world (ID event) (Name event)
                (asFormatter os (DefaultEolFmt (B "aeol"))) w) as ([b s] & Er).
    exists ext, b, s. split; [reflexivity|]. cbv zeta. rewrite Em.
    split; [exact Er|]. rewrite Er. reflexivity.
Qed.
End MainFacts.

Lemma main_formatter_by_extension_witness :
  Forall (fun c => byte_eqb c "."%char = false) (B "go") /\
  handleEvent (calm (unlines [B "a"]) []) {| CombinedOutput := fun _ => (unlines [B "a"], false);
                                            filepath_Dir := fun _ => B "/src" |}
    newFmts {| ID := 1; Op := B "put"; Name := B "/src/f" ++ B "." ++ B "go" |}
    (Acme.holding (unlines [B "a"]))
  = Done {| h_modified := false; h_anyextFmtUsed := false;
            h_session := Some (open (Acme.holding (unlines [B "a"])));
            h_after := [Ran (Command (B "bl2plus") [B "/src/f.go"]);
                        Printed (MsgOutput (unlines [B "a"]))] |}.
Proof.
  assert (H1 : Forall (fun c => byte_eqb c "."%char = false) (B "go"))
    by (repeat constructor).
  split; [exact H1|].
  rewrite (main_formatter_by_extension (calm (unlines [B "a"]) [])
             {| CombinedOutput := fun _ => (unlines [B "a"], false);
                filepath_Dir := fun _ => B "/src" |}
             1 (B "/src/f") (B "go") (Acme.holding (unlines [B "a"])) H1).
  vm_compute. reflexivity.
Defined.

(** ** The formatters *)

Ltac run_cases :=
  match goal with
  | |- context [CombinedOutput ?os (setDir (Command ?cmd [?file]) ?d)] =>
      destruct (CombinedOutput os (setDir (Command cmd [file]) d)) as [new [|]]
  | |- context [CombinedOutput ?os (Command ?cmd [?file])] =>
      destruct (CombinedOutput os (Command cmd [file])) as [new [|]]
  end.

(** X13.  Every formatter runs its command with the file as the only
    argument ([GoImportFmt] in the directory of the file) and returns
    the output and the error of that command as they are.  It prints
    to standard error once when the command failed and not at all
    otherwise, and only [GoImportFmt] runs a second command, go build
    in /var/run, and only after goimports failed.  [buildCmd] puts the
    file after the arguments, whether there are any or not. *)
Theorem format_runs_cmd_on_file (os : Exec) (f : fmter) (file : bytes) :
  let c0 := Command (cmdOf f) [file] in
  let c := match f with
           | GoImportFmt _ => setDir c0 (filepath_Dir os file)
           | _ => c0
           end in
  let build := match f with
               | GoImportFmt _ =>
                   [Ran (setDir (Command (B "go") [B "build"; file]) (B "/var/run"))]
               | _ => []
               end in
  fst (formatOf os f file) = CombinedOutput os c /\
  (snd (CombinedOutput os c) = false -> snd (formatOf os f file) = [Ran c]) /\
  (snd (CombinedOutput os c) = true ->
   exists m, snd (formatOf os f file) = Ran c :: build ++ [Printed m]) /\
  (forall cmd args, buildCmd cmd file args
                    = {| Args := cmd :: args ++ [file]; Dir := [] |}).
Proof.
  assert (Hb : forall cmd args, buildCmd cmd file args
                 = {| Args := cmd :: args ++ [file]; Dir := [] |}).
  { intros cmd [|a args]; reflexivity. }
  intros c0 c build. unfold c, c0, build. clear c c0 build.
  split; [|split; [|split; [|exact Hb]]].
  - destruct f as [cmd|cmd|cmd|cmd|cmd]; cbn [formatOf cmdOf];
      unfold GoImportFmt_format, runFmt;
      change (buildCmd cmd file []) with (Command cmd [file]);
      run_cases; try reflexivity.
    destruct (CombinedOutput os _) as [out e].
    destruct (HasPrefix out _); reflexivity.
  - intros He.
    destruct f as [cmd|cmd|cmd|cmd|cmd]; cbn [formatOf cmdOf] in *;
      unfold GoImportFmt_format, runFmt;
      change (buildCmd cmd file []) with (Command cmd [file]);
      run_cases; try discriminate He; reflexivity.
  - intros He.
    destruct f as [cmd|cmd|cmd|cmd|cmd]; cbn [formatOf cmdOf] in *;
      unfold GoImportFmt_format, runFmt;
      change (buildCmd cmd file []) with (Command cmd [file]);
      run_cases; try discriminate He; try (eexists; reflexivity).
    destruct (CombinedOutput os _) as [out e].
    destruct (HasPrefix out _); eexists; reflexivity.
Qed.

Lemma reformat_trace_shape_witness :
  exists s,
    reformat (calm (unlines [B "a"]) (unlines [B "1a2"; B "> b"])) 1 (B "f.go")
             (printing (unlines [B "a"; B "b"])) (Acme.holding (unlines [B "a"]))
    = Done (true, s) /\
    exists e1 e2 tail,
      events s = [EvReadAll (B "body") false;
                  EvWrite (B "ctl") (B "mark") e1;
                  EvWrite (B "ctl") (B "nomark") e2] ++ tail /\
      addressed tail = true /\
      (forall pre fmt args post,
          tail = pre ++ EvAddr fmt args true :: post -> fmt <> B "$" ->
          exists post', post = EvLog LogErr :: post') /\
      (forall pre file data e post,
          tail = pre ++ EvWrite file data e :: post ->
          file = B "data" /\
          exists pre' fmt args err,
            pre = pre' ++ [EvAddr fmt args err] /\
            (err = true -> fmt = B "$" /\ data = [NL])).
Proof.
  eexists. split; [vm_compute; reflexivity|].
  apply (reformat_trace_shape (calm (unlines [B "a"]) (unlines [B "1a2"; B "> b"])) 1
           (B "f.go") (printing (unlines [B "a"; B "b"]))
           (Acme.holding (unlines [B "a"]))).
  vm_compute. reflexivity.
Defined.

(** ** A put whose formatter fails *)

Section FailedFormatter.
Context {W : Type} `{Backend W}.
Local Open Scope go_scope.

Lemma reformat_format_fails (world : World) (id : Z) (name : bytes)
    (fmter : Formatter) (w : W) :
  snd (format fmter name) = true ->
  exists s, reformat world id name fmter w = Done (false, s) /\
            win s = w /\ noWrites (events s) /\
            forallb (fun e => negb (isAddr e)) (events s) = true.
Proof.
  intros Hfail. unfold reformat, reformatM.
  destruct (acme_Open_err world id);
    [eexists; split; [reflexivity | repeat split]|].
  destruct (ioutil_ReadFile world name) as [old|];
    [|eexists; split; [reflexivity | repeat split]].
  destruct (format fmter name) as [new [|]]; [|discriminate Hfail].
  eexists; split; [reflexivity | repeat split].
Qed.

(** X14.  When the command of every registered formatter fails on the
    file, a put of that file leaves the window as it was: [main] gets
    false from [reformat], which has set no address and issued no
    write, and then runs bl2plus on the file. *)
Theorem failed_formatter_leaves_window (world : World) (os : Exec)
    (event : LogEvent) (w : W) :
  Name event <> [] -> Op event = B "put" ->
  (forall k f, mapGet newFmts k = Some f ->
               snd (CombinedOutput os
                      (match f with
                       | GoImportFmt cmd =>
                           setDir (Command cmd [Name event]) (filepath_Dir os (Name event))
                       | _ => Command (cmdOf f) [Name event]
                       end)) = true) ->
  exists h s, handleEvent world os newFmts event w = Done h /\
    h_modified h = false /\
    h_session h = Some s /\ win s = w /\ noWrites (events s) /\
    forallb (fun e => negb (isAddr e)) (events s) = true /\
    h_after h = [Ran (Command (B "bl2plus") [Name event]);
                 Printed (MsgOutput
                            (fst (CombinedOutput os (Command (B "bl2plus") [Name event]))))].
Proof.
  intros Hname Hput Hfail.
  assert (Hfmt : forall k f, mapGet newFmts k = Some f ->
                   snd (format (asFormatter os f) (Name event)) = true).
  { intros k f Hk. specialize (Hfail k f Hk). cbn [asFormatter format].
    destruct f as [cmd|cmd|cmd|cmd|cmd]; cbn [formatOf cmdOf] in *;
      unfold GoImportFmt_format, runFmt;
      change (buildCmd cmd (Name event) []) with (Command cmd [Name event]);
      run_cases; try discriminate Hfail; try reflexivity.
    destruct (CombinedOutput os _) as [out e].
    destruct (HasPrefix out _); reflexivity. }
  unfold handleEvent.
  rewrite (bytes_eqb_neq _ _ Hname), Hput, bytes_eqb_refl. cbn [negb andb].
  destruct (fileExt_returns (Name event)) as (ext & ->). unfold obind at 1.
  destruct (mapGet newFmts ext) as [f|] eqn:Eext.
  - destruct (reformat_format_fails world (ID event) (Name event) (asFormatter os f) w
                (Hfmt ext f Eext)) as (s & -> & Hw & Hnw & Hna).
    eexists; exists s. split; [reflexivity|]. repeat split; assumption.
  - assert (Eany : mapGet newFmts (B "anyext") = Some (DefaultEolFmt (B "aeol")))
      by reflexivity.
    rewrite Eany.
    destruct (reformat_format_fails world (ID event) (Name event)
                (asFormatter os (DefaultEolFmt (B "aeol"))) w
                (Hfmt _ _ Eany)) as (s & -> & Hw & Hnw & Hna).
    eexists; exists s. split; [reflexivity|]. repeat split; assumption.
Qed.
End FailedFormatter.

Lemma failed_formatter_leaves_window_witness :
  let os := {| CombinedOutput := fun _ => (B "f.go:1:1: expected 'package'", true);
               filepath_Dir := fun _ => B "/src" |} in
  let event := {| ID := 1; Op := B "put"; Name := B "/src/f.go" |} in
  let world := calm (unlines [B "a"]) [] in
  Name event <> [] /\ Op event = B "put" /\
  (forall k f, mapGet newFmts k = Some f ->
               snd (CombinedOutput os
                      (match f with
                       | GoImportFmt cmd =>
                           setDir (Command cmd [Name event]) (filepath_Dir os (Name event))
                       | _ => Command (cmdOf f) [Name event]
                       end)) = true) /\
  exists h s, handleEvent world os newFmts event (Acme.holding (unlines [B "a"])) = Done h /\
    h_modified h = false /\
    h_session h = Some s /\ win s = Acme.holding (unlines [B "a"]) /\
    noWrites (events s) /\
    forallb (fun e => negb (isAddr e)) (events s) = true /\
    h_after h = [Ran (Command (B "bl2plus") [Name event]);
                 Printed (MsgOutput
                            (fst (CombinedOutput os (Command (B "bl2plus") [Name event]))))].
Proof.
  intros os event world.
  assert (H1 : Name event <> []) by discriminate.
  assert (H2 : Op event = B "put") by reflexivity.
  assert (H3 : forall k f, mapGet newFmts k = Some f ->
               snd (CombinedOutput os
                      (match f with
                       | GoImportFmt cmd =>
                           setDir (Command cmd [Name event]) (filepath_Dir os (Name event))
                       | _ => Command (cmdOf f) [Name event]
                       end)) = true) by (intros k f _; reflexivity).
  repeat (split; [assumption|]).
  exact (failed_formatter_leaves_window world os event (Acme.holding (unlines [B "a"]))
           H1 H2 H3).
Defined.
